(** * LEC-Analyzer: the tiered extraction pipeline of [LEC-Analyzer.py]

    A shallow embedding of the decision logic of [DocumentProcessor]:
    text extraction into priority tiers, the cleaning of model answers
    into the ["N/A"] sentinel, the escalation from tier to tier, the
    merge of the tier answers, and the per-document error handling of the
    batch loop.

    Python [str] values are lists of characters.  Characters are the code
    points below 256; [isspace] and [lower] follow Python on that range.
    The user interface, logging and the saving of the report are left
    out; every call of [client.messages.create] and of [time.sleep] is
    recorded in a trace. *)

From Stdlib Require Import Ascii String DecimalString.
From Stdlib Require Import Bool Arith Lia List.
Import ListNotations.

(* ================================================================== *)
(** ** Python strings *)
(* ================================================================== *)

Module PyStr.

Definition str := list ascii.

(** A literal. *)
Definition py (s : string) : str := list_ascii_of_string s.

Definition nl : ascii := ascii_of_nat 10.

Definition eqc (a b : ascii) : bool := Ascii.eqb a b.

Fixpoint str_eqb (a b : str) : bool :=
  match a, b with
  | [], [] => true
  | x :: a', y :: b' => eqc x y && str_eqb a' b'
  | _, _ => false
  end.

(** [str.isspace] on one character: TAB..CR, FS..US, space, NEL, NBSP. *)
Definition isspace (c : ascii) : bool :=
  let n := nat_of_ascii c in
  ((9 <=? n) && (n <=? 13)) || ((28 <=? n) && (n <=? 32))
  || (n =? 133) || (n =? 160).

(** [str.lower] on one character: A..Z and the Latin-1 capitals. *)
Definition lower_char (c : ascii) : ascii :=
  let n := nat_of_ascii c in
  if ((65 <=? n) && (n <=? 90))
     || ((192 <=? n) && (n <=? 222) && negb (n =? 215))
  then ascii_of_nat (n + 32) else c.

Definition lower (s : str) : str := map lower_char s.

Fixpoint lstrip (s : str) : str :=
  match s with
  | c :: s' => if isspace c then lstrip s' else s
  | [] => []
  end.

Definition rstrip (s : str) : str := rev (lstrip (rev s)).

(** [s.strip()] *)
Definition strip (s : str) : str := rstrip (lstrip s).

(** [s.startswith(p)], returning what follows the prefix. *)
Fixpoint strip_prefix (p s : str) : option str :=
  match p, s with
  | [], _ => Some s
  | a :: p', b :: s' => if eqc a b then strip_prefix p' s' else None
  | _ :: _, [] => None
  end.

Definition startswith (s p : str) : bool :=
  match strip_prefix p s with Some _ => true | None => false end.

Definition endswith (s p : str) : bool := startswith (rev s) (rev p).

(** [needle in hay] *)
Fixpoint str_in (needle hay : str) : bool :=
  startswith hay needle ||
  match hay with
  | [] => false
  | _ :: hay' => str_in needle hay'
  end.

(** [sep.join(xs)] *)
Fixpoint join (sep : str) (xs : list str) : str :=
  match xs with
  | [] => []
  | [x] => x
  | x :: rest => x ++ sep ++ join sep rest
  end.

(** [str(n)] for a natural number. *)
Definition str_of_nat (n : nat) : str :=
  py (NilZero.string_of_uint (Nat.to_uint n)).

(** [os.path.basename] for [/]-separated paths. *)
Fixpoint basename_from (acc s : str) : str :=
  match s with
  | [] => acc
  | c :: s' => if eqc c "/"%char then basename_from [] s'
               else basename_from (acc ++ [c]) s'
  end.

Definition basename (s : str) : str := basename_from [] s.

(** A string that starts on a character that is not white space. *)
Definition head_ok (s : str) : bool :=
  match s with c :: _ => negb (isspace c) | [] => false end.

(** A string that ends on a character that is not white space. *)
Definition last_ok (s : str) : bool := head_ok (rev s).

End PyStr.
Import PyStr.

(* ================================================================== *)
(** ** Regular expressions of [empty_patterns] *)
(* ================================================================== *)

(** The constructs the patterns of [is_empty_response] use: literal
    text, [.*], alternation and concatenation. *)
Inductive regex : Type :=
| Lit (s : str)
| AnyStar
| Alt (a b : regex)
| Cat (a b : regex).

(** [.*]: any run of characters other than the line feed. *)
Fixpoint dotstar (s : str) (k : str -> bool) : bool :=
  k s ||
  match s with
  | c :: s' => negb (eqc c nl) && dotstar s' k
  | [] => false
  end.

(** [re_match r s k]: [r] matches a prefix of [s] and [k] accepts the
    rest. *)
Fixpoint re_match (r : regex) (s : str) (k : str -> bool) : bool :=
  match r with
  | Lit l => match strip_prefix l s with Some rest => k rest | None => false end
  | AnyStar => dotstar s k
  | Alt a b => re_match a s k || re_match b s k
  | Cat a b => re_match a s (fun rest => re_match b rest k)
  end.

(** [re.search(r, s)] as a truth value: a match at some position. *)
Fixpoint re_search (r : regex) (s : str) : bool :=
  re_match r s (fun _ => true) ||
  match s with
  | [] => false
  | _ :: s' => re_search r s'
  end.

(** [r] matches the whole of [s]. *)
Definition re_fullmatch (r : regex) (s : str) : bool :=
  re_match r s (fun rest => match rest with [] => true | _ => false end).

(** [(a|b|...)] *)
Fixpoint alts (first : string) (rest : list string) : regex :=
  match rest with
  | [] => Lit (py first)
  | x :: rest' => Alt (Lit (py first)) (alts x rest')
  end.

Fixpoint cats (first : regex) (rest : list regex) : regex :=
  match rest with
  | [] => first
  | x :: rest' => Cat first (cats x rest')
  end.


(* ================================================================== *)
(** ** Cleaning of model answers *)
(* ================================================================== *)

(** The sentinel. *)
Definition NA : str := py "N/A".

(** [clean_claude_response] *)
Definition clean_claude_response (response_text : str) : str :=
  let response_text := strip response_text in
  if str_in NA response_text then
    if negb (str_eqb response_text NA) then NA else response_text
  else response_text.

Definition empty_patterns : list regex :=
  [ cats (Lit (py "based on my review"))
         [AnyStar; Lit (py "no"); AnyStar; Lit (py "found")];
    cats (Lit (py "there "))
         [alts "is" ["are"; "was"; "were"]%string; Lit (py " no")];
    cats (Lit (py "i "))
         [alts "do not" ["don't"; "cannot"; "can't"]%string; Lit (py " find")];
    Lit (py "no relevant information");
    cats (Lit (py "no "))
         [alts "quotes" ["information"; "data"; "content"; "text"]%string;
          Lit (py " ");
          alts "related" ["relevant"; "pertaining"; "referring"]%string];
    cats (Lit (py "the document does not "))
         [alts "contain" ["include"; "mention"; "discuss"; "address"]%string];
    Lit (py "nothing in the document") ].

(** [is_empty_response] *)
Definition is_empty_response (response_text : str) : bool :=
  let response_text := strip (lower response_text) in
  existsb (fun pattern => re_search pattern response_text) empty_patterns.

(** The cleaning step that follows every tier query of
    [process_document_with_claude]:
    [if "N/A" in result or self.is_empty_response(result): result = "N/A"]. *)
Definition clean_response (result : str) : str :=
  if str_in NA result || is_empty_response result then NA else result.


(* ================================================================== *)
(** ** Text extraction and tiers *)
(* ================================================================== *)

(** A page of an opened PDF: its text, or [None] when [load_page] or
    [get_text] raises. *)
Definition Page := option str.

(** The value of ["\n--- Page {page_num + 1} ---\n"]. *)
Definition page_marker (page_num : nat) : str :=
  nl :: py "--- Page " ++ str_of_nat (page_num + 1) ++ py " ---" ++ [nl].

(** [range(a, b)] *)
Definition range (a b : nat) : list nat := seq a (b - a).

(** One [for page_num in ...] loop of [extract_text_from_pdf]; a page
    that raises is skipped. *)
Fixpoint read_pages (doc : list Page) (page_nums : list nat) (text : str)
  : str :=
  match page_nums with
  | [] => text
  | page_num :: rest =>
      match nth_error doc page_num with
      | Some (Some page_text) =>
          read_pages doc rest (text ++ page_text ++ page_marker page_num)
      | _ => read_pages doc rest text
      end
  end.

(** What [extract_text_from_file] returns. *)
Inductive DocumentTextParts : Type :=
| ExpertParts (primary_text secondary_text tertiary_text : str)
| FlatParts (text : str)
| ErrorParts (error : str).

Definition is_error (parts : DocumentTextParts) : bool :=
  match parts with ErrorParts _ => true | _ => false end.


(** Results of calls that can raise. *)
Inductive outcome (A : Type) : Type :=
| Ret (a : A)
| Raise (e : str).
Arguments Ret {A} a.
Arguments Raise {A} e.

Definition max_pages_default : nat := 250.

Section Extraction.

(** [fitz.open]: the pages of the file, or the exception it raises. *)
Variable fitz_open : str -> outcome (list Page).

(** [extract_text_from_pdf] *)
Definition extract_text_from_pdf (file_path : str) (max_pages : nat)
  : DocumentTextParts :=
  match fitz_open file_path with
  | Raise e => ErrorParts (py "Error extracting text: " ++ e)
  | Ret doc =>
      let page_count := Nat.min (length doc) max_pages in
      let is_expert_report := str_in (py "Expert Reports") file_path in
      if is_expert_report then
        ExpertParts
          (read_pages doc (range 0 (Nat.min 10 page_count)) [])
          (read_pages doc (range 10 (Nat.min 20 page_count)) [])
          (read_pages doc (range 20 page_count) [])
      else
        FlatParts (read_pages doc (range 0 page_count) [])
  end.

(** [extract_text_from_file] *)
Definition extract_text_from_file (file_path : str) : DocumentTextParts :=
  if endswith (lower file_path) (py ".pdf") then
    extract_text_from_pdf file_path max_pages_default
  else
    ErrorParts (py "Unsupported file format: " ++ basename file_path
                ++ py ". Only PDF files are supported.").

End Extraction.

(** The text of the pages the extractor reads, page after page, each
    followed by its marker. *)
Definition page_block (numbered : nat * Page) : str :=
  match snd numbered with
  | Some page_text => page_text ++ page_marker (fst numbered)
  | None => []
  end.

Definition extracted_text (doc : list Page) (max_pages : nat) : str :=
  flat_map page_block
    (firstn max_pages (combine (seq 0 (length doc)) doc)).


(* ================================================================== *)
(** ** The model client, the trace and the monad *)
(* ================================================================== *)

Inductive Tier : Type := Primary | Secondary | Tertiary | Whole.

Definition tier_eqb (a b : Tier) : bool :=
  match a, b with
  | Primary, Primary | Secondary, Secondary
  | Tertiary, Tertiary | Whole, Whole => true
  | _, _ => false
  end.

(** The calls of [client.messages.create].  The prompt template is fixed
    text around the topic and the document content, which are kept. *)
Inductive Request : Type :=
| ReqProbe                           (* get_latest_claude_model: "test" *)
| ReqReset                           (* reset_claude_session *)
| ReqPrompt (tier : Tier) (prompt : str) (document_content : str).

Inductive Response : Type :=
| Text (text : str)
| Failure (e : str).

Inductive Event : Type :=
| EvRequest (model : str) (req : Request) (resp : Response)
| EvSleep (seconds : nat).

(** [self.claude_model] and what the process has done so far. *)
Record State : Type := mkState {
  trace : list Event;
  claude_model : option str
}.

Definition is_request (ev : Event) : bool :=
  match ev with EvRequest _ _ _ => true | EvSleep _ => false end.

Definition requests_so_far (evs : list Event) : nat :=
  length (filter is_request evs).

Definition record_event (ev : Event) (st : State) : State :=
  mkState (trace st ++ [ev]) (claude_model st).

Definition M (A : Type) : Type := State -> outcome A * State.

Definition ret {A : Type} (a : A) : M A := fun st => (Ret a, st).

Definition bind {A B : Type} (m : M A) (f : A -> M B) : M B :=
  fun st =>
    match m st with
    | (Ret a, st') => f a st'
    | (Raise e, st') => (Raise e, st')
    end.

(** [try: m except Exception as e: handler(e)] *)
Definition try_except {A : Type} (m : M A) (handler : str -> M A) : M A :=
  fun st =>
    match m st with
    | (Ret a, st') => (Ret a, st')
    | (Raise e, st') => handler e st'
    end.

Declare Scope py_scope.
Delimit Scope py_scope with py.
Notation "x <- m ;; k" := (bind m (fun x => k))
  (at level 61, m at next level, right associativity) : py_scope.
Notation "m ;;; k" := (bind m (fun _ => k))
  (at level 61, right associativity) : py_scope.
Open Scope py_scope.

(** [time.sleep(seconds)] *)
Definition sleep (seconds : nat) : M unit :=
  fun st => (Ret tt, record_event (EvSleep seconds) st).

Definition get_claude_model : M (option str) :=
  fun st => (Ret (claude_model st), st).

Definition set_claude_model (model : str) : M unit :=
  fun st => (Ret tt, mkState (trace st) (Some model)).

(** A Python [dict] with string keys, in insertion order. *)
Definition dict := list (str * str).

Fixpoint dict_set (d : dict) (key value : str) : dict :=
  match d with
  | [] => [(key, value)]
  | (k, v) :: d' =>
      if str_eqb k key then (k, value) :: d'
      else (k, v) :: dict_set d' key value
  end.

(** What [process_document_with_claude] returns when it returns a
    [dict]: the error form has no ["individual_responses"]. *)
Record DocResult : Type := mkDocResult {
  document_name : str;
  document_path : str;
  response : str;
  individual_responses : option dict
}.

(** [self.prompts] *)
Definition prompts : list str := map py
  [ "Personal History and Living Situation (basic plaintiff facts)";
    "Education History (Plaintiff Only - Do not include Author or Expert Education History";
    "Pre-Event Employment History (Jobs prior to accident)";
    "Employment at the Time of the Event";
    "Post Event Employment (jobs after the accident)";
    "Base Wages (earnings around the time of the accident)";
    "Wage Growth (how much earnings are expected to grow)";
    "Fringe Benefits (Employer-Paid Benefits)";
    "Taxes";
    "Work Life Expectancy (how long plaintiff is expected to work)";
    "Social Security Benefits";
    "Discounting to Present Value (discount rate or inflation)";
    "Loss of Household Services" ]%string.

Definition preferred_models : list str := map py
  [ "claude-3-5-sonnet-20241022";
    "self.claude_model";
    "claude-3-sonnet-20240229" ]%string.

(** The separator of the merge, ["\n\n"]. *)
Definition blank_line : str := [nl; nl].

(** The minimum length of an answer that stops the escalation. *)
Definition min_content : nat := 100.

(** [primary_result.strip() == "N/A" or len(primary_result.strip()) < 100] *)
Definition needs_secondary (primary_result : str) : bool :=
  str_eqb (strip primary_result) NA
  || (length (strip primary_result) <? min_content).

(** The condition of the tertiary query. *)
Definition needs_tertiary (primary_result secondary_result : str) : bool :=
  (str_eqb (strip primary_result) NA && str_eqb (strip secondary_result) NA)
  || ((length (strip primary_result) <? min_content)
      && (length (strip secondary_result) <? min_content)
      && str_eqb (strip secondary_result) NA).

(** [if result.strip() != "N/A": all_results.append(result.strip())] *)
Definition append_result (all_results : list str) (result : str) : list str :=
  if negb (str_eqb (strip result) NA) then all_results ++ [strip result]
  else all_results.

(** Lines 649 to 666: the merge of the three tier results. *)
Definition combine_results (primary_result secondary_result tertiary_result
                            : str) : str :=
  let all_results := [] in
  let all_results := append_result all_results primary_result in
  let all_results := append_result all_results secondary_result in
  let all_results := append_result all_results tertiary_result in
  let combined_result :=
    match all_results with
    | [] => NA
    | _ => join blank_line all_results
    end in
  strip combined_result.

Section Pipeline.

(** [client.messages.create]: the answer to the request, given how many
    requests were made before it and the model asked. *)
Variable client : nat -> str -> Request -> Response.

Variable fitz_open : str -> outcome (list Page).

Definition messages_create (model : str) (req : Request) : M str :=
  fun st =>
    let resp := client (requests_so_far (trace st)) model req in
    let st' := record_event (EvRequest model req resp) st in
    match resp with
    | Text text => (Ret text, st')
    | Failure e => (Raise e, st')
    end.

(** The loop of [get_latest_claude_model] over the models to test. *)
Fixpoint try_models (models : list str) : M str :=
  match models with
  | [] => ret (py "claude-3-sonnet-20240229")
  | model :: rest =>
      try_except (messages_create model ReqProbe ;;; ret model)
                 (fun _ => try_models rest)
  end.

(** [get_latest_claude_model] *)
Definition get_latest_claude_model : M str :=
  try_except (try_models preferred_models)
             (fun _ => ret (py "self.claude_model")).

(** [reset_claude_session] *)
Definition reset_claude_session (model : str) : M bool :=
  try_except (messages_create model ReqReset ;;; ret true)
             (fun _ => ret false).

(** The expert-report branch of the prompt loop, lines 496 to 667. *)
Definition process_prompt_expert (model : str)
    (primary_text secondary_text tertiary_text : str) (prompt : str)
  : M str :=
  primary_result <- messages_create model
                      (ReqPrompt Primary prompt primary_text) ;;
  let primary_result := clean_response primary_result in
  secondary_result <-
    (if needs_secondary primary_result then
       secondary_result <- messages_create model
                             (ReqPrompt Secondary prompt secondary_text) ;;
       let secondary_result := clean_response secondary_result in
       sleep 1 ;;;
       ret secondary_result
     else ret []) ;;
  tertiary_result <-
    (if needs_tertiary primary_result secondary_result then
       tertiary_result <- messages_create model
                            (ReqPrompt Tertiary prompt tertiary_text) ;;
       let tertiary_result := clean_response tertiary_result in
       sleep 1 ;;;
       ret tertiary_result
     else ret []) ;;
  ret (combine_results primary_result secondary_result tertiary_result).

(** The other branch, lines 670 to 721. *)
Definition process_prompt_flat (model : str) (text : str) (prompt : str)
  : M str :=
  result <- messages_create model (ReqPrompt Whole prompt text) ;;
  ret (clean_response result).

Definition process_prompt (model : str) (parts : DocumentTextParts)
    (prompt : str) : M str :=
  match parts with
  | ExpertParts p s t => process_prompt_expert model p s t prompt
  | FlatParts text => process_prompt_flat model text prompt
  | ErrorParts _ => process_prompt_flat model [] prompt
  end.

(** [for prompt in self.prompts: ...; time.sleep(1)] *)
Fixpoint process_prompts (model : str) (parts : DocumentTextParts)
    (todo : list str) (results : dict) : M dict :=
  match todo with
  | [] => ret results
  | prompt :: rest =>
      result <- process_prompt model parts prompt ;;
      let results := dict_set results prompt result in
      sleep 1 ;;;
      process_prompts model parts rest results
  end.

(** ["\n\n".join([f"## {prompt}\n{response}" for ...])] *)
Definition combine_responses (results : dict) : str :=
  join blank_line
    (map (fun kv => py "## " ++ fst kv ++ [nl] ++ snd kv) results).

Definition error_result (document_path e : str) : DocResult :=
  mkDocResult (basename document_path) document_path
              (py "Error: " ++ e) None.

(** The [try] block of [process_document_with_claude]. *)
Definition process_document_body (document_path : str)
    (document_text_parts : DocumentTextParts) : M DocResult :=
  current <- get_claude_model ;;
  model <-
    (match current with
     | Some model => ret model
     | None =>
         model <- get_latest_claude_model ;;
         set_claude_model model ;;;
         ret model
     end) ;;
  reset_claude_session model ;;;
  results <- process_prompts model document_text_parts prompts [] ;;
  ret (mkDocResult (basename document_path) document_path
                   (combine_responses results) (Some results)).

(** [process_document_with_claude]; [None] is Python's [None]. *)
Definition process_document_with_claude (document_path : str)
  : State -> option DocResult * State :=
  fun st =>
    let document_text_parts := extract_text_from_file fitz_open document_path in
    if is_error document_text_parts then (None, st)
    else
      match process_document_body document_path document_text_parts st with
      | (Ret result, st') => (Some result, st')
      | (Raise e, st') => (Some (error_result document_path e), st')
      end.

(** The loop of [process_documents]: the list handed to
    [create_report_document]. *)
Fixpoint process_documents_loop (document_paths : list str)
    (results : list DocResult) (st : State) : list DocResult * State :=
  match document_paths with
  | [] => (results, st)
  | doc_path :: rest =>
      let (result, st) := process_document_with_claude doc_path st in
      let results :=
        match result with
        | Some r => results ++ [r]
        | None => results
        end in
      let st := record_event (EvSleep 1) st in
      process_documents_loop rest results st
  end.

Definition process_documents (document_paths : list str) (st : State)
  : list DocResult * State :=
  process_documents_loop document_paths [] st.

End Pipeline.

Definition initial_state : State := mkState [] None.

(** *** Reading a trace *)

(** The events added by a step that took the trace from [before] to
    [after]. *)
Definition issued (before after : State) : list Event :=
  skipn (length (trace before)) (trace after).

Definition is_tier_query (tier : Tier) (ev : Event) : bool :=
  match ev with
  | EvRequest _ (ReqPrompt t _ _) _ => tier_eqb t tier
  | _ => false
  end.

Definition is_prompt_query (ev : Event) : bool :=
  match ev with
  | EvRequest _ (ReqPrompt _ _ _) _ => true
  | _ => false
  end.

(** The tier was queried. *)
Definition queried (tier : Tier) (evs : list Event) : bool :=
  existsb (is_tier_query tier) evs.

(** The number of tier queries. *)
Definition query_count (evs : list Event) : nat :=
  length (filter is_prompt_query evs).

(** The raw answers of the tier queries, in the order of the queries. *)
Fixpoint tier_answers (evs : list Event) : list (Tier * str) :=
  match evs with
  | [] => []
  | EvRequest _ (ReqPrompt t _ _) (Text raw) :: rest =>
      (t, raw) :: tier_answers rest
  | _ :: rest => tier_answers rest
  end.

(** The raw answer of the query of one tier, when it was answered. *)
Fixpoint tier_answer (tier : Tier) (evs : list Event) : option str :=
  match evs with
  | [] => None
  | EvRequest _ (ReqPrompt t _ _) (Text raw) :: rest =>
      if tier_eqb t tier then Some raw else tier_answer tier rest
  | _ :: rest => tier_answer tier rest
  end.

(** A tier query that raised. *)
Definition is_failed_query (ev : Event) : bool :=
  match ev with
  | EvRequest _ (ReqPrompt _ _ _) (Failure _) => true
  | _ => false
  end.

(** Between two successive requests there is a [time.sleep]. *)
Fixpoint paced_from (slept : bool) (evs : list Event) : bool :=
  match evs with
  | [] => true
  | EvSleep _ :: rest => paced_from true rest
  | EvRequest _ _ _ :: rest => slept && paced_from false rest
  end.

Definition paced (evs : list Event) : bool :=
  match evs with
  | [] => true
  | EvSleep _ :: rest => paced_from true rest
  | EvRequest _ _ _ :: rest => paced_from false rest
  end.

(** *** The runs of the escalation *)

(** The runs of the expert-report branch for one prompt: what is
    recorded, and what comes out. *)
Inductive escalation_run (model p s t prompt : str)
  : list Event -> outcome str -> Prop :=
| run_primary_fails (e : str) :
    escalation_run model p s t prompt
      [EvRequest model (ReqPrompt Primary prompt p) (Failure e)]
      (Raise e)
| run_primary_only (praw : str) :
    needs_secondary (clean_response praw) = false ->
    escalation_run model p s t prompt
      [EvRequest model (ReqPrompt Primary prompt p) (Text praw)]
      (Ret (combine_results (clean_response praw) [] []))
| run_secondary_fails (praw e : str) :
    needs_secondary (clean_response praw) = true ->
    escalation_run model p s t prompt
      [EvRequest model (ReqPrompt Primary prompt p) (Text praw);
       EvRequest model (ReqPrompt Secondary prompt s) (Failure e)]
      (Raise e)
| run_two_tiers (praw sraw : str) :
    needs_secondary (clean_response praw) = true ->
    needs_tertiary (clean_response praw) (clean_response sraw) = false ->
    escalation_run model p s t prompt
      [EvRequest model (ReqPrompt Primary prompt p) (Text praw);
       EvRequest model (ReqPrompt Secondary prompt s) (Text sraw);
       EvSleep 1]
      (Ret (combine_results (clean_response praw) (clean_response sraw) []))
| run_tertiary_fails (praw sraw e : str) :
    needs_secondary (clean_response praw) = true ->
    needs_tertiary (clean_response praw) (clean_response sraw) = true ->
    escalation_run model p s t prompt
      [EvRequest model (ReqPrompt Primary prompt p) (Text praw);
       EvRequest model (ReqPrompt Secondary prompt s) (Text sraw);
       EvSleep 1;
       EvRequest model (ReqPrompt Tertiary prompt t) (Failure e)]
      (Raise e)
| run_three_tiers (praw sraw traw : str) :
    needs_secondary (clean_response praw) = true ->
    needs_tertiary (clean_response praw) (clean_response sraw) = true ->
    escalation_run model p s t prompt
      [EvRequest model (ReqPrompt Primary prompt p) (Text praw);
       EvRequest model (ReqPrompt Secondary prompt s) (Text sraw);
       EvSleep 1;
       EvRequest model (ReqPrompt Tertiary prompt t) (Text traw);
       EvSleep 1]
      (Ret (combine_results (clean_response praw) (clean_response sraw)
                            (clean_response traw))).

Ltac run_monad :=
  unfold bind, ret, sleep, messages_create, record_event; simpl trace.

Ltac close_run H :=
  inversion H; subst; clear H; simpl;
  eexists; split; [rewrite <- ?app_assoc; simpl; reflexivity|];
  split; [reflexivity|].

(** *** The merge in the words of the specification *)

(** The stripped, cleaned answers of the tiers that were queried, in
    the order of the queries. *)
Definition tier_contents (evs : list Event) : list str :=
  map (fun answer => strip (clean_response (snd answer))) (tier_answers evs).

Definition not_sentinel (content : str) : bool := negb (str_eqb content NA).

(** The contents other than the sentinel, joined by a blank line; the
    sentinel when none is left. *)
Definition merge_as_stated (contents : list str) : str :=
  match filter not_sentinel contents with
  | [] => NA
  | kept => join blank_line kept
  end.

(** *** Failures in a trace *)

(** No tier query of the trace raised. *)
Definition no_failed_query (evs : list Event) : bool :=
  negb (existsb is_failed_query evs).

(** What a trace shows of the outcome of a step: a step that returns
    has no failed tier query; a step that raises [e] ends on the tier
    query that raised [e], the first to fail. *)
Definition outcome_events {A : Type} (out : outcome A) (evs : list Event)
  : Prop :=
  match out with
  | Ret _ => no_failed_query evs = true
  | Raise e =>
      exists evs0 model tier prompt content,
        evs = evs0 ++ [EvRequest model (ReqPrompt tier prompt content)
                                 (Failure e)]
        /\ no_failed_query evs0 = true
  end.

(* ================================================================== *)
(** ** Sample inputs *)
(* ================================================================== *)

(** Three pages, the second of which cannot be read. *)
Definition sample_pdf : list Page :=
  [Some (py "Wages."); None; Some (py "Tax.")].

(** A file system with one unreadable file. *)
Definition sample_open (file_path : str) : outcome (list Page) :=
  if str_in (py "missing") file_path then Raise (py "cannot open file")
  else Ret sample_pdf.

(** A double quote. *)
Definition dq : ascii := ascii_of_nat 34.

(** A verbatim quote with its page citation. *)
Definition quoted_answer : str :=
  dq :: py "There is no dispute that Mr. Doe earned $52,000 in 2019."
  ++ dq :: py " (Page 3)".

(** An answer of more than 100 characters. *)
Definition long_answer : str :=
  dq :: py "Mr. Doe was employed as a journeyman electrician and worked "
  ++ py "an average of forty-two hours per week in 2019."
  ++ dq :: py " (Page 2)".

(** A client that answers the n-th request with the n-th entry of a
    script, and with the sentinel once the script is over. *)
Definition scripted (answers : list Response)
  : nat -> str -> Request -> Response :=
  fun n _ _ => nth n answers (Text NA).

(** A client whose request number [k] raises; all others answer [text]. *)
Definition failing_at (k : nat) (text : str)
  : nat -> str -> Request -> Response :=
  fun n _ _ => if n =? k then Failure (py "rate limit exceeded")
               else Text text.

Definition sample_model : str := py "claude-3-5-sonnet-20241022".

(** Paths of the sample file system. *)
Definition expert_path : str := py "/case/Expert Reports/smith.pdf".
Definition deposition_path : str := py "/case/Depositions/doe.pdf".
Definition missing_path : str := py "/case/Depositions/missing.pdf".
Definition notes_path : str := py "/case/notes.txt".

(** The number of answers kept for a document. *)
Definition answered_prompts (result : DocResult) : nat :=
  match individual_responses result with
  | Some results => length results
  | None => 0
  end.

(* ================================================================== *)
(** ** Finding the documents *)
(* ================================================================== *)

(** [valid_extensions] of [get_all_document_paths]. *)
Definition valid_extensions : list str :=
  map py [".pdf"; ".docx"; ".doc"; ".txt"]%string.

(** [s.endswith(suffixes)] for a tuple of suffixes. *)
Definition endswith_any (s : str) (suffixes : list str) : bool :=
  existsb (endswith s) suffixes.

(** [element in processed_paths] for the set of paths seen. *)
Definition in_set (element : str) (processed_paths : list str) : bool :=
  existsb (str_eqb element) processed_paths.

(** A path is in the set of paths seen. *)
Definition seen_in (path : str) (found : list str * list str) : Prop :=
  In path (snd found).

Section Discovery.

(** The file system: [os.path.isfile], [os.path.isdir], [os.walk] (the
    directories under a folder, each with its files), [os.path.join] and
    [os.path.abspath]. *)
Variable isfile isdir : str -> bool.
Variable walk : str -> list (str * list str).
Variable path_join : str -> str -> str.
Variable abspath : str -> str.

(** The lists [document_paths] and [processed_paths]. *)
Definition Found : Type := (list str * list str)%type.

(** [if os.path.abspath(p) not in processed_paths: ...append(p);
    processed_paths.add(os.path.abspath(p))] *)
Definition add_document (found : Found) (file_path : str) : Found :=
  let (document_paths, processed_paths) := found in
  if negb (in_set (abspath file_path) processed_paths) then
    (document_paths ++ [file_path], processed_paths ++ [abspath file_path])
  else found.

(** [for file in files: ...] for one directory of the walk. *)
Definition add_directory (found : Found) (entry : str * list str) : Found :=
  let (root, files) := entry in
  fold_left
    (fun found file =>
       if endswith_any (lower file) valid_extensions then
         add_document found (path_join root file)
       else found)
    files found.

(** The body of [for item in self.selected_items]. *)
Definition add_item (found : Found) (item : str) : Found :=
  if isfile item && endswith_any (lower item) valid_extensions then
    add_document found item
  else if isdir item then
    fold_left add_directory (walk item) found
  else found.

(** What the loops keep: the set of paths seen holds the absolute paths
    of the documents found, each once. *)
Definition found_ok (found : list str * list str) : Prop :=
  snd found = map abspath (fst found) /\ NoDup (snd found).

(** [get_all_document_paths] *)
Definition get_all_document_paths (selected_items : list str) : list str :=
  fst (fold_left add_item selected_items ([], [])).

End Discovery.

(** A file system in which every folder holds the same three files. *)
Definition sample_walk (item : str) : list (str * list str) :=
  [(item, [py "doe.pdf"; py "notes.txt"; py "photo.png"])].

Definition sample_isdir (item : str) : bool :=
  negb (str_in (py ".") item).

Definition sample_isfile (item : str) : bool := str_in (py ".") item.

Definition sample_join (root file : str) : str := root ++ py "/" ++ file.

(** *** What every match of a pattern holds *)

(** [always_has w r]: the word [w] stands in a literal that every match
    of [r] goes through. *)
Fixpoint always_has (w : str) (r : regex) : bool :=
  match r with
  | Lit l => str_in w l
  | AnyStar => false
  | Alt a b => always_has w a && always_has w b
  | Cat a b => always_has w a || always_has w b
  end.

(** A stored answer is the sentinel or has no "N/A" in it. *)
Definition sentinel_or_clean (answer : str) : Prop :=
  answer = NA \/ str_in NA answer = false.

(** An answer that none of the patterns can match. *)
Definition plain_answer : str :=
  dq :: py "Mr. Doe earned $52,000 in 2019." ++ dq :: py " (Page 3)".

(** *** Requests in a trace *)

(** A probe of [model] that raised. *)
Definition failed_probe (model : str) (ev : Event) : Prop :=
  exists e, ev = EvRequest model ReqProbe (Failure e).

Definition is_probe (ev : Event) : bool :=
  match ev with
  | EvRequest _ ReqProbe _ => true
  | _ => false
  end.

(** Apart from the probes, a request goes to [model]. *)
Definition sent_to (model : str) (ev : Event) : bool :=
  match ev with
  | EvRequest _ ReqProbe _ => true
  | EvRequest m _ _ => str_eqb m model
  | EvSleep _ => true
  end.

(** A tier query sent to [model], or a sleep. *)
Definition prompt_or_sleep (model : str) (ev : Event) : bool :=
  match ev with
  | EvRequest m (ReqPrompt _ _ _) _ => str_eqb m model
  | EvRequest _ _ _ => false
  | EvSleep _ => true
  end.

(** The tier queries of a trace, in order. *)
Fixpoint prompt_requests (evs : list Event) : list Request :=
  match evs with
  | [] => []
  | EvRequest _ (ReqPrompt t prompt content) _ :: rest =>
      ReqPrompt t prompt content :: prompt_requests rest
  | _ :: rest => prompt_requests rest
  end.

(** The strings of a list are all different. *)
Fixpoint distinct (l : list str) : bool :=
  match l with
  | [] => true
  | x :: rest => negb (in_set x rest) && distinct rest
  end.

(** The result of a document whose topics were all answered. *)
Definition success_result (document_path : str) (results : dict)
  : DocResult :=
  mkDocResult (basename document_path) document_path
              (combine_responses results) (Some results).

(* ================================================================== *)
(** ** Page citations, parsing and the sections of the report *)
(* ================================================================== *)

(** A decimal digit, [\d] on the characters below 256. *)
Definition isdigit (c : ascii) : bool :=
  let n := nat_of_ascii c in (48 <=? n) && (n <=? 57).

(** The longest prefix of characters that satisfy [p], and the rest. *)
Fixpoint span (p : ascii -> bool) (s : str) : str * str :=
  match s with
  | c :: s' =>
      if p c then let (taken, rest) := span p s' in (c :: taken, rest)
      else ([], s)
  | [] => ([], [])
  end.

(** [strip_prefix] under [re.IGNORECASE]. *)
Fixpoint istrip_prefix (p s : str) : option str :=
  match p, s with
  | [], _ => Some s
  | a :: p', b :: s' =>
      if eqc (lower_char a) (lower_char b) then istrip_prefix p' s'
      else None
  | _ :: _, [] => None
  end.

(** A match of [Page\s+(\d+)] at the start of [s]: the digits and what
    follows the match. *)
Definition match_page (s : str) : option (str * str) :=
  match istrip_prefix (py "Page") s with
  | Some after_word =>
      match span isspace after_word with
      | ([], _) => None
      | (_, after_space) =>
          match span isdigit after_space with
          | ([], _) => None
          | (digits, rest) => Some (digits, rest)
          end
      end
  | None => None
  end.

(** [re.findall(r'Page\s+(\d+)', s, re.IGNORECASE)]: the matches from
    left to right, the search going on after each match; [skip] counts
    the characters of a match still to pass. *)
Fixpoint findall_pages_from (skip : nat) (s : str) : list str :=
  match s with
  | [] => []
  | c :: s' =>
      match skip with
      | S k => findall_pages_from k s'
      | 0 =>
          match match_page (c :: s') with
          | Some (digits, rest) =>
              digits :: findall_pages_from (length s' - length rest) s'
          | None => findall_pages_from 0 s'
          end
      end
  end.

Definition findall_pages (s : str) : list str := findall_pages_from 0 s.

(** The lookahead [(?=\n\n## |$)]: [$] holds at the end of the text and
    before a line feed that ends it. *)
Definition section_end (rest : str) : bool :=
  startswith rest (nl :: nl :: py "## ")
  || match rest with [] => true | _ => false end
  || str_eqb rest [nl].

(** The group [(.+?)] with [re.DOTALL], whose first character is [c]:
    as short as the lookahead allows. *)
Fixpoint lazy_group (c : ascii) (rest : str) : str :=
  if section_end rest then [c]
  else match rest with
       | [] => [c]
       | d :: rest' => c :: lazy_group d rest'
       end.

(** A match of [## <prompt>(.+?)(?=\n\n## |$)] at the start of [s]. *)
Definition match_section (prompt s : str) : option str :=
  match istrip_prefix (py "## " ++ prompt) s with
  | Some (c :: rest) => Some (lazy_group c rest)
  | _ => None
  end.

(** [re.search] for the section of a prompt: the group of the first
    match. *)
Fixpoint search_section (prompt s : str) : option str :=
  match match_section prompt s with
  | Some group => Some group
  | None =>
      match s with
      | [] => None
      | _ :: s' => search_section prompt s'
      end
  end.

(** An entry of [parsed_results]. *)
Record Parsed : Type := mkParsed {
  content : str;
  footnotes : list str
}.

Definition no_information : Parsed :=
  mkParsed (py "No information found") [].

(** [parsed_results], a [dict] from prompts to entries. *)
Definition parsed_dict := list (str * Parsed).

Fixpoint parsed_set (d : parsed_dict) (key : str) (value : Parsed)
  : parsed_dict :=
  match d with
  | [] => [(key, value)]
  | (k, v) :: d' =>
      if str_eqb k key then (k, value) :: d'
      else (k, v) :: parsed_set d' key value
  end.

Fixpoint parsed_get (d : parsed_dict) (key : str) : option Parsed :=
  match d with
  | [] => None
  | (k, v) :: d' => if str_eqb k key then Some v else parsed_get d' key
  end.

(** The entry the old method gives a prompt. *)
Definition parse_section (response prompt : str) : Parsed :=
  match search_section prompt response with
  | Some group =>
      let content := strip group in
      if negb (match content with [] => true | _ => false end)
         && negb (str_eqb content NA)
      then mkParsed content (findall_pages content)
      else no_information
  | None => no_information
  end.

(** [parse_claude_response] of a result of
    [process_document_with_claude]. *)
Definition parse_claude_response (response_data : DocResult) : parsed_dict :=
  match individual_responses response_data with
  | Some individual =>
      fold_left
        (fun parsed_results item =>
           parsed_set parsed_results (fst item)
             (mkParsed (strip (snd item)) (findall_pages (snd item))))
        individual []
  | None =>
      fold_left
        (fun parsed_results prompt =>
           parsed_set parsed_results prompt
             (parse_section (response response_data) prompt))
        prompts []
  end.

(** A match of [\s*\([^)]*\)] at the start of [s]: what follows it. *)
Fixpoint after_close (s : str) : option str :=
  match s with
  | [] => None
  | c :: s' => if eqc c ")"%char then Some s' else after_close s'
  end.

Definition match_parenthetical (s : str) : option str :=
  match lstrip s with
  | c :: s' => if eqc c "("%char then after_close s' else None
  | [] => None
  end.

(** [re.sub(r'\s*\([^)]*\)', '', s)] *)
Fixpoint remove_parentheticals_from (skip : nat) (s : str) : str :=
  match s with
  | [] => []
  | c :: s' =>
      match skip with
      | S k => remove_parentheticals_from k s'
      | 0 =>
          match match_parenthetical (c :: s') with
          | Some rest =>
              remove_parentheticals_from (length s' - length rest) s'
          | None => c :: remove_parentheticals_from 0 s'
          end
      end
  end.

Definition remove_parentheticals (s : str) : str :=
  remove_parentheticals_from 0 s.

(** What [create_report_document] adds to the document. *)
Inductive Block : Type :=
| Heading (text : str) (level : nat)
| Paragraph (text : str)
| PageBreak.

(** The test that lets a content into the report. *)
Definition has_content_text (content_text : str) : bool :=
  negb (match content_text with [] => true | _ => false end)
  && negb (str_eqb (strip content_text) NA)
  && negb (str_eqb content_text (py "No information found")).

(** [m] and then [f], unless [m] raised. *)
Definition and_then {A B : Type} (m : option A) (f : A -> option B)
  : option B :=
  match m with
  | Some a => f a
  | None => None
  end.

Section Report.

(** python-docx: whether [add_heading] and [add_paragraph] take a text.
    They raise on a text that cannot stand in the XML of the document,
    and the [except] of [create_report_document] then returns [None]. *)
Variable docx_accepts : str -> bool.

(** [doc.add_heading(text, level)], [None] when it raises. *)
Definition add_heading (text : str) (level : nat) (doc : list Block)
  : option (list Block) :=
  if docx_accepts text then Some (doc ++ [Heading text level]) else None.

(** [doc.add_paragraph(text)], [None] when it raises. *)
Definition add_paragraph (text : str) (doc : list Block)
  : option (list Block) :=
  if docx_accepts text then Some (doc ++ [Paragraph text]) else None.

(** [doc.add_page_break()] *)
Definition add_page_break (doc : list Block) : option (list Block) :=
  Some (doc ++ [PageBreak]).

(** What one document adds under a prompt, lines 833 to 844: whether it
    had content to show, and the document after it; [None] when
    python-docx raises. *)
Definition document_blocks (prompt : str) (doc_result : DocResult)
    (doc : list Block) : option (bool * list Block) :=
  let parsed_result := parse_claude_response doc_result in
  match parsed_get parsed_result prompt with
  | Some entry =>
      let content_text := content entry in
      if has_content_text content_text then
        and_then (add_heading (py "From: " ++ document_name doc_result) 2 doc)
          (fun doc =>
        and_then (add_paragraph content_text doc)
          (fun doc =>
        and_then (add_paragraph (py "---") doc)
          (fun doc => Some (true, doc))))
      else Some (false, doc)
  | None => Some (false, doc)
  end.

(** [for doc_result in results: ...], with the flag [has_content]. *)
Fixpoint document_loop (prompt : str) (results : list DocResult)
    (has_content : bool) (doc : list Block) : option (bool * list Block) :=
  match results with
  | [] => Some (has_content, doc)
  | doc_result :: rest =>
      and_then (document_blocks prompt doc_result doc)
        (fun shown_doc =>
           document_loop prompt rest (has_content || fst shown_doc)
                         (snd shown_doc))
  end.

(** The section of one prompt, lines 823 to 851. *)
Definition prompt_section (prompt : str) (results : list DocResult)
    (doc : list Block) : option (list Block) :=
  let clean_prompt := remove_parentheticals prompt in
  and_then (add_heading clean_prompt 1 doc)
    (fun doc =>
  and_then (document_loop prompt results false doc)
    (fun content_doc =>
  and_then (if negb (fst content_doc) then add_paragraph NA (snd content_doc)
            else Some (snd content_doc))
    (fun doc => add_page_break doc))).

(** The sections of the report, in the order of [todo]. *)
Fixpoint report_sections_loop (todo : list str) (results : list DocResult)
    (doc : list Block) : option (list Block) :=
  match todo with
  | [] => Some doc
  | prompt :: rest =>
      and_then (prompt_section prompt results doc)
        (fun doc => report_sections_loop rest results doc)
  end.

(** [for prompt in self.prompts: ...] of [create_report_document]. *)
Definition report_sections (results : list DocResult) (doc : list Block)
  : option (list Block) :=
  report_sections_loop prompts results doc.

End Report.

(** A text python-docx takes: no control character other than the tab,
    the line feed and the carriage return. *)
Definition xml_char (c : ascii) : bool :=
  let n := nat_of_ascii c in
  (32 <=? n) || (n =? 9) || (n =? 10) || (n =? 13).

Definition xml_compatible (text : str) : bool := forallb xml_char text.

(** An answer with a form feed in it. *)
Definition form_feed_answer : str :=
  py "Mr. Doe earned $52,000." ++ [ascii_of_nat 12] ++ py "(Page 3)".

(* ================================================================== *)
(** * Facts about strings *)
(* ================================================================== *)

Lemma eqc_eq (a b : ascii) : eqc a b = true <-> a = b.
Proof. unfold eqc. apply Ascii.eqb_eq. Qed.

Lemma eqc_refl (a : ascii) : eqc a a = true.
Proof. apply eqc_eq. reflexivity. Qed.

Lemma str_eqb_eq (a b : str) : str_eqb a b = true <-> a = b.
Proof.
  revert b. induction a as [|x a IH]; intros [|y b]; simpl;
    try (split; [discriminate | discriminate]); try tauto.
  rewrite andb_true_iff, eqc_eq, IH. split.
  - intros [-> ->]. reflexivity.
  - intros H. inversion H. tauto.
Qed.

Lemma str_eqb_neq (a b : str) : str_eqb a b = false <-> a <> b.
Proof.
  rewrite <- str_eqb_eq. destruct (str_eqb a b); split; congruence.
Qed.

Lemma strip_prefix_app (p s : str) : strip_prefix p (p ++ s) = Some s.
Proof.
  induction p as [|a p IH]; simpl; [reflexivity|].
  rewrite eqc_refl. exact IH.
Qed.

Lemma strip_prefix_spec (p s rest : str) :
  strip_prefix p s = Some rest <-> s = p ++ rest.
Proof.
  split.
  - revert s. induction p as [|a p IH]; intros s; simpl.
    + intros H. inversion H. reflexivity.
    + destruct s as [|b s]; [discriminate|].
      destruct (eqc a b) eqn:E; [|discriminate].
      apply eqc_eq in E. subst b. intros H. apply IH in H. now subst.
  - intros ->. apply strip_prefix_app.
Qed.

Lemma strip_prefix_more (p s rest post : str) :
  strip_prefix p s = Some rest ->
  strip_prefix p (s ++ post) = Some (rest ++ post).
Proof.
  intros H. apply strip_prefix_spec in H. subst s.
  rewrite <- app_assoc. apply strip_prefix_app.
Qed.

(** [needle in hay] holds exactly when [hay] splits around [needle]. *)
Lemma str_in_spec (needle hay : str) :
  str_in needle hay = true <->
  exists pre post, hay = pre ++ needle ++ post.
Proof.
  split.
  - induction hay as [|c hay IH]; simpl.
    + rewrite orb_false_r. unfold startswith.
      destruct (strip_prefix needle []) as [rest|] eqn:E; [|discriminate].
      intros _. apply strip_prefix_spec in E. exists [], rest. exact E.
    + intros H. apply orb_true_iff in H. destruct H as [H|H].
      * unfold startswith in H.
        destruct (strip_prefix needle (c :: hay)) as [rest|] eqn:E;
          [|discriminate].
        apply strip_prefix_spec in E. exists [], rest. exact E.
      * destruct (IH H) as (pre & post & ->).
        exists (c :: pre), post. reflexivity.
  - intros (pre & post & ->).
    induction pre as [|c pre IH]; simpl.
    + destruct (needle ++ post) eqn:E; simpl;
        unfold startswith; rewrite <- E, strip_prefix_app; reflexivity.
    + rewrite IH. apply orb_true_r.
Qed.

Lemma lstrip_decomp (s : str) :
  exists l, s = l ++ lstrip s /\ forallb isspace l = true.
Proof.
  induction s as [|c s (l & E & Hl)]; simpl.
  - exists []. split; reflexivity.
  - destruct (isspace c) eqn:Hc.
    + exists (c :: l). simpl. rewrite Hc, Hl. split; [congruence|reflexivity].
    + exists []. split; reflexivity.
Qed.

Lemma rstrip_decomp (s : str) :
  exists r, s = rstrip s ++ r /\ forallb isspace r = true.
Proof.
  unfold rstrip. destruct (lstrip_decomp (rev s)) as (l & E & Hl).
  exists (rev l). split.
  - rewrite <- rev_app_distr, <- E, rev_involutive. reflexivity.
  - rewrite forallb_forall in *. intros x Hx. apply Hl.
    now apply in_rev.
Qed.

(** Stripping removes a run of white space at each end, nothing else. *)
Lemma strip_decomp (s : str) :
  exists l r, s = l ++ strip s ++ r
              /\ forallb isspace l = true /\ forallb isspace r = true.
Proof.
  unfold strip.
  destruct (lstrip_decomp s) as (l & El & Hl).
  destruct (rstrip_decomp (lstrip s)) as (r & Er & Hr).
  exists l, r. repeat split; try assumption.
  rewrite <- Er. exact El.
Qed.

Lemma lstrip_head (s : str) :
  match lstrip s with [] => True | c :: _ => isspace c = false end.
Proof.
  induction s as [|c s IH]; simpl; [exact I|].
  destruct (isspace c) eqn:E; [exact IH | exact E].
Qed.

Lemma lstrip_id (c : ascii) (s : str) :
  isspace c = false -> lstrip (c :: s) = c :: s.
Proof. intros H. simpl. now rewrite H. Qed.

Lemma lstrip_spaces (l s : str) :
  forallb isspace l = true -> lstrip (l ++ s) = lstrip s.
Proof.
  induction l as [|c l IH]; simpl; [reflexivity|].
  intros H. apply andb_true_iff in H. destruct H as [Hc Hl].
  rewrite Hc. auto.
Qed.

Lemma lstrip_app (y z : str) :
  lstrip (y ++ z) = match lstrip y with [] => lstrip z | l => l ++ z end.
Proof.
  induction y as [|c y IH]; simpl; [now destruct (lstrip z)|].
  destruct (isspace c); [exact IH | reflexivity].
Qed.

(** [rstrip] read from the left. *)
Lemma rstrip_cons (c : ascii) (s : str) :
  rstrip (c :: s) =
  match rstrip s with
  | [] => if isspace c then [] else [c]
  | r => c :: r
  end.
Proof.
  unfold rstrip. simpl rev. rewrite lstrip_app.
  destruct (lstrip (rev s)) as [|a l] eqn:E; simpl.
  - destruct (isspace c); reflexivity.
  - rewrite rev_app_distr. simpl.
    destruct (rev l ++ [a]) eqn:E'; [|reflexivity].
    destruct (rev l); discriminate.
Qed.

Lemma rstrip_nil : rstrip [] = [].
Proof. reflexivity. Qed.

Lemma strip_comm (s : str) : strip s = lstrip (rstrip s).
Proof.
  unfold strip. induction s as [|c s IH]; [reflexivity|].
  rewrite rstrip_cons. simpl lstrip at 1.
  destruct (isspace c) eqn:Hc.
  - rewrite IH. destruct (rstrip s); simpl; [reflexivity|now rewrite Hc].
  - rewrite rstrip_cons.
    destruct (rstrip s); simpl; now rewrite Hc.
Qed.

Lemma rstrip_spaces (s w : str) :
  forallb isspace w = true -> rstrip (s ++ w) = rstrip s.
Proof.
  intros H. unfold rstrip. rewrite rev_app_distr, lstrip_spaces; [reflexivity|].
  rewrite forallb_forall in *. intros x Hx. apply H. now apply in_rev.
Qed.

Lemma strip_spaces_r (s w : str) :
  forallb isspace w = true -> strip (s ++ w) = strip s.
Proof. intros H. now rewrite !strip_comm, rstrip_spaces. Qed.

Lemma strip_spaces_l (w s : str) :
  forallb isspace w = true -> strip (w ++ s) = strip s.
Proof. intros H. unfold strip. now rewrite lstrip_spaces. Qed.

Lemma head_ok_lstrip (s : str) : head_ok s = true -> lstrip s = s.
Proof.
  destruct s as [|c s]; simpl; [discriminate|].
  intros H. apply negb_true_iff in H. now rewrite H.
Qed.

Lemma last_ok_rstrip (s : str) : last_ok s = true -> rstrip s = s.
Proof.
  intros H. unfold rstrip. rewrite head_ok_lstrip by exact H.
  apply rev_involutive.
Qed.

Lemma strip_id (s : str) :
  head_ok s = true -> last_ok s = true -> strip s = s.
Proof.
  intros Hh Hl. unfold strip. rewrite (head_ok_lstrip s Hh).
  now apply last_ok_rstrip.
Qed.

Lemma lstrip_head_ok (s : str) : lstrip s = [] \/ head_ok (lstrip s) = true.
Proof.
  pose proof (lstrip_head s) as H. destruct (lstrip s); [now left|].
  right. simpl. now rewrite H.
Qed.

(** A stripped string is empty or has no white space at either end. *)
Lemma strip_edges (s : str) :
  strip s = [] \/ (head_ok (strip s) = true /\ last_ok (strip s) = true).
Proof.
  destruct (strip s) as [|c t] eqn:E; [now left|right]. split.
  - rewrite strip_comm in E. rewrite <- E.
    destruct (lstrip_head_ok (rstrip s)) as [H|H]; [congruence|exact H].
  - rewrite <- E. unfold strip, rstrip, last_ok. rewrite rev_involutive.
    destruct (lstrip_head_ok (rev (lstrip s))) as [H|H]; [|exact H].
    unfold strip, rstrip in E. rewrite H in E. discriminate.
Qed.

Lemma strip_idem (s : str) : strip (strip s) = strip s.
Proof.
  destruct (strip_edges s) as [H|[Hh Hl]].
  - rewrite H. reflexivity.
  - now apply strip_id.
Qed.

Lemma head_ok_app (x y : str) : head_ok x = true -> head_ok (x ++ y) = true.
Proof. destruct x; simpl; [discriminate | auto]. Qed.

Lemma last_ok_app (x y : str) : last_ok y = true -> last_ok (x ++ y) = true.
Proof.
  unfold last_ok. rewrite rev_app_distr. apply head_ok_app.
Qed.

(** Stripping keeps every occurrence of a needle that has no white space
    at either end. *)
Lemma lstrip_keeps (pre n post : str) :
  head_ok n = true ->
  exists pre', lstrip (pre ++ n ++ post) = pre' ++ n ++ post.
Proof.
  intros H. induction pre as [|c pre (pre' & IH)]; simpl.
  - exists []. simpl. apply head_ok_lstrip. now apply head_ok_app.
  - destruct (isspace c).
    + exists pre'. exact IH.
    + exists (c :: pre). reflexivity.
Qed.

Lemma rstrip_keeps (pre n post : str) :
  last_ok n = true ->
  exists post', rstrip (pre ++ n ++ post) = pre ++ n ++ post'.
Proof.
  intros H. unfold rstrip. rewrite !rev_app_distr, <- app_assoc.
  destruct (lstrip_keeps (rev post) (rev n) (rev pre) H) as (q & E).
  rewrite E. exists (rev q).
  rewrite !rev_app_distr, !rev_involutive, <- app_assoc. reflexivity.
Qed.

Lemma str_in_strip (n s : str) :
  head_ok n = true -> last_ok n = true ->
  str_in n s = true -> str_in n (strip s) = true.
Proof.
  intros Hh Hl H. apply str_in_spec in H. destruct H as (pre & post & ->).
  destruct (lstrip_keeps pre n post Hh) as (pre' & E1).
  unfold strip. rewrite E1.
  destruct (rstrip_keeps pre' n post Hl) as (post' & E2).
  rewrite E2. apply str_in_spec. now exists pre', post'.
Qed.

Lemma str_in_of_strip (n s : str) :
  str_in n (strip s) = true -> str_in n s = true.
Proof.
  intros H. apply str_in_spec in H. destruct H as (pre & post & E).
  destruct (strip_decomp s) as (l & r & Es & _).
  apply str_in_spec. exists (l ++ pre), (post ++ r).
  rewrite Es, E, <- !app_assoc. reflexivity.
Qed.

Lemma str_in_refl (n : str) : str_in n n = true.
Proof. apply str_in_spec. exists [], []. now rewrite app_nil_r. Qed.

Lemma lower_app (a b : str) : lower (a ++ b) = lower a ++ lower b.
Proof. apply map_app. Qed.

Lemma lower_length (s : str) : length (lower s) = length s.
Proof. apply length_map. Qed.

Lemma join_spaces_tail (sep : str) (xs : list str) :
  xs <> [] -> join sep (xs ++ [ [] ]) = join sep xs ++ sep.
Proof.
  induction xs as [|x xs IH]; [congruence|]. intros _.
  destruct xs as [|y xs].
  - simpl. now rewrite app_nil_r.
  - change (join sep ((x :: y :: xs) ++ [[]]))
      with (x ++ sep ++ join sep ((y :: xs) ++ [[]])).
    rewrite IH by discriminate.
    change (join sep (x :: y :: xs)) with (x ++ sep ++ join sep (y :: xs)).
    now rewrite <- !app_assoc.
Qed.

(** Joining non-empty pieces that have no white space at their ends
    gives a text with no white space at its ends. *)
Lemma join_edges (sep : str) (xs : list str) :
  xs <> [] ->
  Forall (fun x => head_ok x = true /\ last_ok x = true) xs ->
  head_ok (join sep xs) = true /\ last_ok (join sep xs) = true.
Proof.
  induction xs as [|x xs IH]; [congruence|]. intros _ HF.
  inversion HF as [|? ? [Hh Hl] HF']; subst.
  destruct xs as [|y xs]; [simpl; auto|].
  change (join sep (x :: y :: xs)) with (x ++ sep ++ join sep (y :: xs)).
  destruct (IH ltac:(discriminate) HF') as [_ Hl'].
  split.
  - now apply head_ok_app.
  - rewrite app_assoc. now apply last_ok_app.
Qed.


(* ================================================================== *)
(** * The pattern matcher *)
(* ================================================================== *)

Lemma re_search_unfold (r : regex) (s : str) :
  re_search r s =
  re_match r s (fun _ => true)
  || match s with [] => false | _ :: s' => re_search r s' end.
Proof. destruct s; reflexivity. Qed.

Lemma dotstar_unfold (s : str) (k : str -> bool) :
  dotstar s k =
  k s || match s with
         | c :: s' => negb (eqc c nl) && dotstar s' k
         | [] => false
         end.
Proof. destruct s; reflexivity. Qed.

Lemma dotstar_extend (m post : str) (k k' : str -> bool) :
  (forall x, k x = true -> k' (x ++ post) = true) ->
  dotstar m k = true -> dotstar (m ++ post) k' = true.
Proof.
  intros Hk. induction m as [|c m IH]; intros H.
  - simpl in H. rewrite orb_false_r in H. apply Hk in H.
    rewrite dotstar_unfold, H. reflexivity.
  - simpl in H. apply orb_true_iff in H. simpl. destruct H as [H|H].
    + apply Hk in H. simpl in H. now rewrite H.
    + apply andb_true_iff in H. destruct H as [Hc H].
      rewrite Hc, (IH H). apply orb_true_r.
Qed.

(** A match stays a match when text is added after it, as long as the
    continuation accepts the longer rest. *)
Lemma re_match_extend (r : regex) :
  forall (m post : str) (k k' : str -> bool),
    (forall x, k x = true -> k' (x ++ post) = true) ->
    re_match r m k = true -> re_match r (m ++ post) k' = true.
Proof.
  induction r as [l| |a IHa b IHb|a IHa b IHb]; intros m post k k' Hk H;
    simpl in *.
  - destruct (strip_prefix l m) as [rest|] eqn:E; [|discriminate].
    rewrite (strip_prefix_more l m rest post E). now apply Hk.
  - now apply (dotstar_extend m post k k').
  - apply orb_true_iff in H. apply orb_true_iff. destruct H as [H|H].
    + left. now apply (IHa m post k k').
    + right. now apply (IHb m post k k').
  - apply (IHa m post (fun rest => re_match b rest k)); [|exact H].
    intros x Hx. now apply (IHb x post k k').
Qed.

(** [re.search] finds a pattern wherever an instance of it stands. *)
Lemma re_search_complete (r : regex) (pre m post : str) :
  re_fullmatch r m = true -> re_search r (pre ++ m ++ post) = true.
Proof.
  intros H. induction pre as [|c pre IH].
  - simpl app. rewrite re_search_unfold.
    unfold re_fullmatch in H.
    rewrite (re_match_extend r m post _ (fun _ => true)
               (fun _ _ => eq_refl) H).
    reflexivity.
  - simpl. rewrite IH. apply orb_true_r.
Qed.

(* ================================================================== *)
(** * Cleaning of model answers *)
(* ================================================================== *)

Lemma NA_edges : head_ok NA = true /\ last_ok NA = true.
Proof. split; reflexivity. Qed.

Lemma strip_NA : strip NA = NA.
Proof. reflexivity. Qed.

(** An answer in which an instance of one of the patterns stands,
    in any letter case, is taken as empty. *)
Lemma pattern_instance_is_empty (raw m : str) (r : regex) :
  In r empty_patterns ->
  re_fullmatch r m = true ->
  head_ok m = true -> last_ok m = true ->
  str_in m (lower raw) = true ->
  is_empty_response raw = true.
Proof.
  intros Hr Hm Hh Hl Hin. unfold is_empty_response.
  apply (str_in_strip m (lower raw) Hh Hl) in Hin.
  apply str_in_spec in Hin. destruct Hin as (pre & post & E).
  apply existsb_exists. exists r. split; [exact Hr|].
  rewrite E. now apply re_search_complete.
Qed.

Lemma is_empty_clean (raw : str) :
  is_empty_response raw = true -> clean_response raw = NA.
Proof.
  intros H. unfold clean_response. rewrite H, orb_true_r. reflexivity.
Qed.

Lemma contains_NA_clean (raw : str) :
  str_in NA raw = true -> clean_response raw = NA.
Proof. intros H. unfold clean_response. now rewrite H. Qed.


(** The cleaned answer is the sentinel exactly when its stripped form
    is: the test [result.strip() == "N/A"] of the escalation is a test
    for the sentinel. *)
Lemma strip_clean_NA (raw : str) :
  str_eqb (strip (clean_response raw)) NA = true <-> clean_response raw = NA.
Proof.
  rewrite str_eqb_eq. split.
  - unfold clean_response.
    destruct (str_in NA raw || is_empty_response raw) eqn:E;
      [reflexivity|].
    intros H. apply orb_false_iff in E. destruct E as [E _].
    assert (str_in NA raw = true) as C; [|congruence].
    apply str_in_of_strip. rewrite H. apply str_in_refl.
  - intros ->. reflexivity.
Qed.




(** C5: an answer that contains "N/A" and is not the sentinel once
    stripped is cleaned to the bare sentinel, by [clean_claude_response]
    and by the cleaning step of the pipeline alike; the sentinel itself is
    left as it is. *)
Theorem sentinel_substring_canonical :
  (forall raw : str,
      str_in NA raw = true -> strip raw <> NA ->
      clean_claude_response raw = NA /\ clean_response raw = NA)
  /\ clean_claude_response NA = NA
  /\ clean_response NA = NA.
Proof.
  split; [|split; reflexivity].
  intros raw Hin Hne. split.
  - unfold clean_claude_response.
    destruct NA_edges as [Hh Hl].
    rewrite (str_in_strip NA raw Hh Hl Hin).
    apply str_eqb_neq in Hne. now rewrite Hne.
  - now apply contains_NA_clean.
Qed.

Lemma sentinel_substring_canonical_witness :
  clean_claude_response (py "N/A - the report is silent on wages.") = NA
  /\ clean_response (py "N/A - the report is silent on wages.") = NA.
Proof.
  apply (proj1 sentinel_substring_canonical).
  - vm_compute. reflexivity.
  - vm_compute. discriminate.
Defined.

(** C10: the patterns are searched anywhere in the lower-cased answer,
    so text around the words "there is no" does not save an answer, and
    there is an answer made of a verbatim quote and its page citation,
    without "N/A" in it, that is classified as empty and cleaned to the
    sentinel, which holds neither the quote nor the citation. *)
Theorem quoted_answer_erased :
  (forall before after : str,
      is_empty_response (before ++ py "There is no" ++ after) = true
      /\ clean_response (before ++ py "There is no" ++ after) = NA)
  /\ exists raw : str,
       str_in (py "(Page 3)") raw = true
       /\ str_in (py "earned $52,000") raw = true
       /\ str_in NA raw = false
       /\ is_empty_response raw = true
       /\ clean_response raw = NA
       /\ str_in (py "(Page 3)") (clean_response raw) = false.
Proof.
  split.
  - intros before after.
    assert (is_empty_response (before ++ py "There is no" ++ after) = true)
      as He.
    { apply (pattern_instance_is_empty _ (py "there is no")
               (cats (Lit (py "there "))
                     [alts "is" ["are"; "was"; "were"]%string;
                      Lit (py " no")])).
      - simpl. right. left. reflexivity.
      - reflexivity.
      - reflexivity.
      - reflexivity.
      - rewrite !lower_app. apply str_in_spec.
        exists (lower before), (lower after). reflexivity. }
    split; [exact He | now apply is_empty_clean].
  - exists quoted_answer. repeat split; vm_compute; reflexivity.
Qed.

(* ================================================================== *)
(** * Text extraction *)
(* ================================================================== *)

Lemma read_pages_acc (doc : list Page) (page_nums : list nat) :
  forall text, read_pages doc page_nums text
               = text ++ read_pages doc page_nums [].
Proof.
  induction page_nums as [|n rest IH]; intros text; simpl.
  - now rewrite app_nil_r.
  - destruct (nth_error doc n) as [[page_text|]|]; try apply IH.
    rewrite IH, (IH (page_text ++ page_marker n)).
    now rewrite <- !app_assoc.
Qed.

Lemma read_pages_app (doc : list Page) (a b : list nat) :
  forall text, read_pages doc (a ++ b) text
               = read_pages doc b (read_pages doc a text).
Proof.
  induction a as [|n a IH]; intros text; simpl; [reflexivity|].
  destruct (nth_error doc n) as [[page_text|]|]; apply IH.
Qed.

Lemma range_split (a b c : nat) :
  a <= b -> b <= c -> range a c = range a b ++ range b c.
Proof.
  intros Hab Hbc. unfold range.
  replace (c - a) with ((b - a) + (c - b)) by lia.
  rewrite seq_app. now replace (a + (b - a)) with b by lia.
Qed.

Lemma range_empty (a b : nat) : b <= a -> range a b = [].
Proof. intros H. unfold range. now replace (b - a) with 0 by lia. Qed.

(** The page loop over [n] pages that follow the pages [pre]. *)
Lemma read_pages_suffix (d : list Page) :
  forall (pre : list Page) (n : nat),
    n <= length d ->
    read_pages (pre ++ d) (seq (length pre) n) []
    = flat_map page_block (firstn n (combine (seq (length pre) (length d)) d)).
Proof.
  induction d as [|pg d IH]; intros pre n Hn.
  - simpl in Hn. assert (n = 0) as -> by lia. reflexivity.
  - destruct n as [|n]; [reflexivity|].
    simpl in Hn. simpl seq. simpl combine. simpl firstn. simpl flat_map.
    simpl read_pages.
    rewrite nth_error_app2 by lia. rewrite Nat.sub_diag. simpl nth_error.
    assert (pre ++ pg :: d = (pre ++ [pg]) ++ d) as E
        by now rewrite <- app_assoc.
    assert (S (length pre) = length (pre ++ [pg])) as El
        by (rewrite length_app; simpl; lia).
    specialize (IH (pre ++ [pg]) n ltac:(lia)).
    rewrite <- El, <- E in IH.
    destruct pg as [page_text|]; unfold page_block at 1; simpl fst; simpl snd.
    + rewrite read_pages_acc, IH. simpl app. reflexivity.
    + exact IH.
Qed.

Lemma firstn_min_length {A : Type} (l : list A) (m : nat) :
  firstn (Nat.min (length l) m) l = firstn m l.
Proof.
  destruct (Nat.le_ge_cases (length l) m) as [H|H].
  - rewrite Nat.min_l by exact H.
    now rewrite firstn_all, firstn_all2.
  - now rewrite Nat.min_r.
Qed.

(** The loop over all the pages reads the extracted text. *)
Lemma read_all_pages (doc : list Page) (max_pages : nat) :
  read_pages doc (range 0 (Nat.min (length doc) max_pages)) []
  = extracted_text doc max_pages.
Proof.
  unfold range, extracted_text. rewrite Nat.sub_0_r.
  pose proof (read_pages_suffix doc [] (Nat.min (length doc) max_pages)
                (Nat.le_min_l _ _)) as E.
  simpl in E. rewrite E. f_equal.
  set (numbered := combine (seq 0 (length doc)) doc).
  assert (length numbered = length doc) as El
      by (unfold numbered; now rewrite length_combine, length_seq, Nat.min_id).
  rewrite <- El. apply firstn_min_length.
Qed.

(** The three tiers of an expert report, put together, are the text a
    document read in one piece holds. *)
Lemma tiers_partition (doc : list Page) (page_count : nat) :
  read_pages doc (range 0 (Nat.min 10 page_count)) []
  ++ read_pages doc (range 10 (Nat.min 20 page_count)) []
  ++ read_pages doc (range 20 page_count) []
  = read_pages doc (range 0 page_count) [].
Proof.
  assert (range 0 page_count
          = range 0 (Nat.min 10 page_count)
            ++ range 10 (Nat.min 20 page_count) ++ range 20 page_count) as E.
  { destruct (Nat.le_gt_cases page_count 10) as [H|H].
    - rewrite (Nat.min_r 10 page_count) by exact H.
      rewrite (range_empty 10), (range_empty 20), !app_nil_r;
        [reflexivity| |]; lia.
    - rewrite (Nat.min_l 10 page_count) by lia.
      destruct (Nat.le_gt_cases page_count 20) as [H'|H'].
      + rewrite (Nat.min_r 20 page_count) by exact H'.
        rewrite (range_empty 20), app_nil_r by lia.
        apply range_split; lia.
      + rewrite (Nat.min_l 20 page_count) by lia.
        rewrite (range_split 0 10 page_count) by lia.
        now rewrite (range_split 10 20 page_count) by lia. }
  rewrite E, !read_pages_app.
  set (p := read_pages doc (range 0 (Nat.min 10 page_count)) []).
  rewrite (read_pages_acc doc (range 20 page_count)
             (read_pages doc (range 10 (Nat.min 20 page_count)) p)).
  rewrite (read_pages_acc doc (range 10 (Nat.min 20 page_count)) p).
  now rewrite <- app_assoc.
Qed.

Section ExtractionFacts.

Variable fitz_open : str -> outcome (list Page).


(** X1: the same pages filed as an expert report give three tiers that add
    up to that text. *)
Lemma expert_document_three_tiers (file_path : str) (doc : list Page) :
  str_in (py "Expert Reports") file_path = true ->
  fitz_open file_path = Ret doc ->
  exists p s t,
    extract_text_from_pdf fitz_open file_path max_pages_default
    = ExpertParts p s t
    /\ p ++ s ++ t = extracted_text doc max_pages_default.
Proof.
  intros Hexp Hopen. unfold extract_text_from_pdf. rewrite Hopen, Hexp.
  eexists _, _, _. split; [reflexivity|].
  rewrite tiers_partition. apply read_all_pages.
Qed.

End ExtractionFacts.


(* ================================================================== *)
(** * Escalation over the tiers *)
(* ================================================================== *)

Lemma issued_app (st st' : State) (evs : list Event) :
  trace st' = trace st ++ evs -> issued st st' = evs.
Proof.
  intros E. unfold issued. rewrite E.
  rewrite skipn_app, skipn_all, Nat.sub_diag. reflexivity.
Qed.

Lemma needs_tertiary_unqueried (primary_result : str) :
  needs_tertiary primary_result [] = false.
Proof.
  unfold needs_tertiary. change (strip []) with (@nil ascii).
  change (str_eqb [] NA) with false.
  now rewrite !andb_false_r.
Qed.

Lemma needs_secondary_spec (raw : str) :
  needs_secondary (clean_response raw) = true <->
  clean_response raw = NA
  \/ length (strip (clean_response raw)) < min_content.
Proof.
  unfold needs_secondary.
  rewrite orb_true_iff, strip_clean_NA, Nat.ltb_lt. reflexivity.
Qed.

Lemma needs_tertiary_spec (praw sraw : str) :
  needs_tertiary (clean_response praw) (clean_response sraw) = true <->
  (clean_response praw = NA /\ clean_response sraw = NA)
  \/ (length (strip (clean_response praw)) < min_content
      /\ length (strip (clean_response sraw)) < min_content
      /\ clean_response sraw = NA).
Proof.
  unfold needs_tertiary.
  rewrite orb_true_iff, !andb_true_iff, !strip_clean_NA, !Nat.ltb_lt.
  tauto.
Qed.

(** Once the secondary tier has been asked, the tertiary tier is asked
    exactly when the secondary answer is the sentinel. *)
Lemma needs_tertiary_after_secondary (primary_result secondary_result : str) :
  needs_secondary primary_result = true ->
  needs_tertiary primary_result secondary_result
  = str_eqb (strip secondary_result) NA.
Proof.
  unfold needs_secondary, needs_tertiary. intros H.
  destruct (str_eqb (strip secondary_result) NA) eqn:E.
  - rewrite str_eqb_eq in E. rewrite E.
    change (length NA <? min_content) with true.
    rewrite !andb_true_r. exact H.
  - now rewrite !andb_false_r.
Qed.

Section EscalationFacts.

Variable client : nat -> str -> Request -> Response.

(** Every run of [process_prompt_expert] is one of the six above; the
    model in use is not changed. *)
Lemma process_prompt_expert_run (model p s t prompt : str)
    (st st' : State) (out : outcome str) :
  process_prompt_expert client model p s t prompt st = (out, st') ->
  exists evs,
    trace st' = trace st ++ evs
    /\ claude_model st' = claude_model st
    /\ escalation_run model p s t prompt evs out.
Proof.
  unfold process_prompt_expert. run_monad.
  destruct (client (requests_so_far (trace st)) model
                   (ReqPrompt Primary prompt p)) as [praw|e].
  2:{ intros H. close_run H. constructor. }
  destruct (needs_secondary (clean_response praw)) eqn:N2.
  2:{ run_monad. rewrite needs_tertiary_unqueried. intros H. close_run H.
      now constructor. }
  run_monad.
  match goal with
  | |- context [client ?n model (ReqPrompt Secondary prompt s)] =>
      destruct (client n model (ReqPrompt Secondary prompt s)) as [sraw|e]
  end.
  2:{ intros H. close_run H. now constructor. }
  run_monad.
  destruct (needs_tertiary (clean_response praw) (clean_response sraw))
    eqn:N3.
  2:{ intros H. close_run H. now constructor. }
  run_monad.
  match goal with
  | |- context [client ?n model (ReqPrompt Tertiary prompt t)] =>
      destruct (client n model (ReqPrompt Tertiary prompt t)) as [traw|e]
  end.
  - intros H. close_run H. now constructor.
  - intros H. close_run H. now constructor.
Qed.

End EscalationFacts.

Section EscalationClaims.

Variable client : nat -> str -> Request -> Response.

(** C1: in the extraction of one topic from an expert report, the
    secondary tier is queried exactly when the cleaned primary answer is
    the sentinel or its stripped text is shorter than 100 characters;
    when the cleaned primary answer is not the sentinel and has at least
    100 characters, one tier query is made and neither the secondary nor
    the tertiary tier is queried. *)
Theorem secondary_gate (model p s t prompt : str) (st st' : State)
    (out : outcome str) (praw : str) :
  process_prompt_expert client model p s t prompt st = (out, st') ->
  tier_answer Primary (issued st st') = Some praw ->
  (queried Secondary (issued st st') = true <->
   (clean_response praw = NA
    \/ length (strip (clean_response praw)) < 100))
  /\ (clean_response praw <> NA ->
      100 <= length (strip (clean_response praw)) ->
      query_count (issued st st') = 1
      /\ queried Secondary (issued st st') = false
      /\ queried Tertiary (issued st st') = false).
Proof.
  intros Hrun Ha.
  destruct (process_prompt_expert_run client model p s t prompt st st' out
              Hrun) as (evs & Etr & _ & R).
  rewrite (issued_app st st' evs Etr) in *.
  change 100 with min_content.
  rewrite <- needs_secondary_spec.
  assert (clean_response praw <> NA ->
          min_content <= length (strip (clean_response praw)) ->
          needs_secondary (clean_response praw) = true -> False) as Hno.
  { intros Hne Hlen N. apply needs_secondary_spec in N.
    destruct N as [N|N]; [contradiction | lia]. }
  inversion R; subst; simpl in Ha; try discriminate;
    inversion Ha; subst; clear Ha; simpl;
    (split; [split; congruence|]); intros Hne Hlen;
    try (exfalso; now apply (Hno Hne Hlen));
    repeat split; reflexivity.
Qed.

(** C2: when the secondary tier was queried and answered, the tertiary
    tier is queried exactly when both cleaned answers are the sentinel,
    or both stripped texts are shorter than 100 characters and the
    cleaned secondary answer is the sentinel; with both answers the
    sentinel, all three tiers are queried. *)
Theorem tertiary_gate (model p s t prompt : str) (st st' : State)
    (out : outcome str) (praw sraw : str) :
  process_prompt_expert client model p s t prompt st = (out, st') ->
  tier_answer Primary (issued st st') = Some praw ->
  tier_answer Secondary (issued st st') = Some sraw ->
  (queried Tertiary (issued st st') = true <->
   ((clean_response praw = NA /\ clean_response sraw = NA)
    \/ (length (strip (clean_response praw)) < 100
        /\ length (strip (clean_response sraw)) < 100
        /\ clean_response sraw = NA)))
  /\ (clean_response praw = NA -> clean_response sraw = NA ->
      query_count (issued st st') = 3
      /\ queried Primary (issued st st') = true
      /\ queried Secondary (issued st st') = true
      /\ queried Tertiary (issued st st') = true).
Proof.
  intros Hrun Hp Hs.
  destruct (process_prompt_expert_run client model p s t prompt st st' out
              Hrun) as (evs & Etr & _ & R).
  rewrite (issued_app st st' evs Etr) in *.
  change 100 with min_content.
  rewrite <- needs_tertiary_spec.
  assert (clean_response praw = NA -> clean_response sraw = NA ->
          needs_tertiary (clean_response praw) (clean_response sraw) = true)
    as Hboth.
  { intros H1 H2. apply needs_tertiary_spec. now left. }
  inversion R; subst; simpl in Hp, Hs; try discriminate;
    inversion Hp; subst; clear Hp; inversion Hs; subst; clear Hs; simpl;
    (split; [split; congruence|]); intros H1 H2;
    try (specialize (Hboth H1 H2); congruence);
    repeat split; reflexivity.
Qed.

End EscalationClaims.

Lemma secondary_gate_witness :
  query_count
    (issued initial_state
       (snd (process_prompt_expert (scripted [Text long_answer]) sample_model
               (py "pages 1-10") (py "pages 11-20") (py "pages 21-")
               (py "Taxes") initial_state))) = 1.
Proof.
  refine (proj1 (proj2 (secondary_gate (scripted [Text long_answer])
                          sample_model
                          (py "pages 1-10") (py "pages 11-20")
                          (py "pages 21-") (py "Taxes")
                          initial_state _ _ long_answer _ _) _ _)).
  - vm_compute. reflexivity.
  - vm_compute. reflexivity.
  - vm_compute. discriminate.
  - vm_compute. lia.
Defined.

Lemma tertiary_gate_witness :
  query_count
    (issued initial_state
       (snd (process_prompt_expert
               (scripted [Text NA; Text (py "No relevant information.")])
               sample_model
               (py "pages 1-10") (py "pages 11-20") (py "pages 21-")
               (py "Taxes") initial_state))) = 3.
Proof.
  refine (proj1 (proj2 (tertiary_gate
                          (scripted [Text NA;
                                     Text (py "No relevant information.")])
                          sample_model
                          (py "pages 1-10") (py "pages 11-20")
                          (py "pages 21-") (py "Taxes")
                          initial_state _ _ NA
                          (py "No relevant information.") _ _ _) _ _)).
  - vm_compute. reflexivity.
  - vm_compute. reflexivity.
  - vm_compute. reflexivity.
  - vm_compute. reflexivity.
  - vm_compute. reflexivity.
Defined.

(* ================================================================== *)
(** * The merge of the tier answers *)
(* ================================================================== *)

Lemma append_result_filter (all_results : list str) (result : str) :
  append_result all_results result
  = all_results ++ filter not_sentinel [strip result].
Proof.
  unfold append_result, not_sentinel. simpl.
  destruct (negb (str_eqb (strip result) NA)); [reflexivity|].
  now rewrite app_nil_r.
Qed.

(** The code's merge is the stated merge of the three results, stripped;
    a tier that was not queried stands in it as the empty text. *)
Lemma combine_results_merge (a b c : str) :
  combine_results a b c
  = strip (merge_as_stated [strip a; strip b; strip c]).
Proof.
  unfold combine_results, merge_as_stated.
  rewrite !append_result_filter.
  change ([] ++ filter not_sentinel [strip a])
    with (filter not_sentinel [strip a]).
  change [strip a; strip b; strip c]
    with ([strip a] ++ [strip b] ++ [strip c]).
  rewrite !filter_app, <- app_assoc.
  now destruct (filter not_sentinel [strip a] ++
                filter not_sentinel [strip b] ++
                filter not_sentinel [strip c]).
Qed.

Lemma blank_line_spaces : forallb isspace blank_line = true.
Proof. reflexivity. Qed.

(** An empty text at the end of the merge is stripped away. *)
Lemma merge_pad (contents : list str) :
  filter not_sentinel contents <> [] ->
  strip (merge_as_stated (contents ++ [ [] ]))
  = strip (merge_as_stated contents).
Proof.
  intros Hne. unfold merge_as_stated. rewrite filter_app.
  change (filter not_sentinel [ [] ]) with [@nil ascii].
  destruct (filter not_sentinel contents) as [|c kept] eqn:E;
    [congruence|].
  change ((c :: kept) ++ [ [] ]) with (c :: (kept ++ [ [] ])).
  change (c :: (kept ++ [ [] ])) with ((c :: kept) ++ [ [] ]).
  destruct ((c :: kept) ++ [ [] ]) as [|c' kept'] eqn:E';
    [discriminate|].
  rewrite <- E', join_spaces_tail by discriminate.
  apply strip_spaces_r, blank_line_spaces.
Qed.

Lemma filter_pad_nonempty (contents : list str) :
  filter not_sentinel (contents ++ [ [] ]) <> [].
Proof.
  rewrite filter_app. change (filter not_sentinel [ [] ]) with [@nil ascii].
  destruct (filter not_sentinel contents); discriminate.
Qed.

(** When no content is empty the stripping of the merge changes
    nothing. *)
Lemma merge_exact (contents : list str) :
  Forall (fun c => exists x, c = strip x) contents ->
  Forall (fun c => c <> []) contents ->
  strip (merge_as_stated contents) = merge_as_stated contents.
Proof.
  intros Hs Hne. unfold merge_as_stated.
  destruct (filter not_sentinel contents) as [|c kept] eqn:E;
    [reflexivity|].
  rewrite <- E.
  assert (Forall (fun x => head_ok x = true /\ last_ok x = true)
                 (filter not_sentinel contents)) as Hedges.
  { apply Forall_forall. intros x Hx. apply filter_In in Hx.
    destruct Hx as [Hx _].
    rewrite Forall_forall in Hs, Hne.
    destruct (Hs x Hx) as (y & ->).
    destruct (strip_edges y) as [H|H]; [|exact H].
    exfalso. now apply (Hne (strip y) Hx). }
  assert (filter not_sentinel contents <> []) as Hnil by congruence.
  destruct (join_edges blank_line (filter not_sentinel contents) Hnil Hedges)
    as [Hh Hl].
  now apply strip_id.
Qed.

Lemma tier_contents_stripped (evs : list Event) :
  Forall (fun c => exists x, c = strip x) (tier_contents evs).
Proof.
  unfold tier_contents. apply Forall_forall. intros c Hc.
  apply in_map_iff in Hc. destruct Hc as (a & <- & _). now eexists.
Qed.

Lemma not_sentinel_true (result : str) :
  str_eqb (strip result) NA = false ->
  filter not_sentinel [strip result] = [strip result].
Proof. intros H. simpl. unfold not_sentinel. now rewrite H. Qed.

Section MergeClaims.

Variable client : nat -> str -> Request -> Response.

(** C3, as the code has it: the merged content of a topic is the stated
    merge (the stripped, cleaned answers of the queried tiers, in tier
    order, without the sentinels, joined by a blank line, or the sentinel
    when none is left) stripped once more as a whole; when no queried
    tier gave an empty text the two are the same. *)
Theorem merged_content (model p s t prompt : str) (st st' : State)
    (merged : str) :
  process_prompt_expert client model p s t prompt st = (Ret merged, st') ->
  merged = strip (merge_as_stated (tier_contents (issued st st')))
  /\ (Forall (fun c => c <> []) (tier_contents (issued st st')) ->
      merged = merge_as_stated (tier_contents (issued st st'))).
Proof.
  intros Hrun.
  destruct (process_prompt_expert_run client model p s t prompt st st'
              (Ret merged) Hrun) as (evs & Etr & _ & R).
  rewrite (issued_app st st' evs Etr).
  assert (merged = strip (merge_as_stated (tier_contents evs))) as E.
  { inversion R; subst; unfold tier_contents; simpl map;
      rewrite combine_results_merge; change (strip []) with (@nil ascii).
    - (* primary alone *)
      match goal with
      | N : needs_secondary _ = false |- _ =>
          unfold needs_secondary in N; apply orb_false_iff in N;
          destruct N as [N _]
      end.
      change [strip (clean_response praw); []; []]
        with (([strip (clean_response praw)] ++ [ [] ]) ++ [ [] ]).
      rewrite merge_pad by apply filter_pad_nonempty.
      rewrite merge_pad; [reflexivity|].
      rewrite (not_sentinel_true (clean_response praw)) by assumption.
      discriminate.
    - (* primary and secondary *)
      match goal with
      | N2 : needs_secondary _ = true, N3 : needs_tertiary _ _ = false |- _ =>
          rewrite (needs_tertiary_after_secondary _ _ N2) in N3
      end.
      change [strip (clean_response praw); strip (clean_response sraw); []]
        with ([strip (clean_response praw); strip (clean_response sraw)]
              ++ [ [] ]).
      rewrite merge_pad; [reflexivity|].
      change [strip (clean_response praw); strip (clean_response sraw)]
        with ([strip (clean_response praw)]
              ++ [strip (clean_response sraw)]).
      rewrite filter_app.
      rewrite (not_sentinel_true (clean_response sraw)) by assumption.
      destruct (filter not_sentinel [strip (clean_response praw)]);
        discriminate.
    - (* all three *)
      reflexivity. }
  split; [exact E|].
  intros Hne. rewrite E.
  apply merge_exact; [apply tier_contents_stripped | exact Hne].
Qed.

End MergeClaims.

Lemma merged_content_witness :
  py "B"
  = strip (merge_as_stated
             (tier_contents
                (issued initial_state
                   (snd (process_prompt_expert
                           (scripted [Text []; Text NA; Text (py "B")])
                           sample_model (py "pages 1-10") (py "pages 11-20")
                           (py "pages 21-") (py "Taxes") initial_state))))).
Proof.
  refine (proj1 (merged_content (scripted [Text []; Text NA; Text (py "B")])
                   sample_model (py "pages 1-10") (py "pages 11-20")
                   (py "pages 21-") (py "Taxes") initial_state _
                   (py "B") _)).
  vm_compute. reflexivity.
Defined.

(** C3 as stated fails: with an empty primary answer, the sentinel from
    the secondary tier and "B" from the tertiary tier, the collected
    contents are the empty text and "B", whose join starts with the blank
    line, and the merged content is "B". *)
Lemma merge_strips_blank_line :
  let run := process_prompt_expert
               (scripted [Text []; Text NA; Text (py "B")])
               sample_model (py "pages 1-10") (py "pages 11-20")
               (py "pages 21-") (py "Taxes") initial_state in
  fst run = Ret (py "B")
  /\ tier_contents (issued initial_state (snd run)) = [ []; NA; py "B" ]
  /\ merge_as_stated (tier_contents (issued initial_state (snd run)))
     = nl :: nl :: py "B"
  /\ fst run
     <> Ret (merge_as_stated (tier_contents (issued initial_state (snd run)))).
Proof.
  repeat split; try (vm_compute; reflexivity).
  vm_compute. discriminate.
Qed.

(** The example of the claim: "A" from the primary tier, the sentinel
    from the secondary tier and "B" from the tertiary tier merge to "A",
    a blank line, "B". *)
Lemma merge_order_example :
  fst (process_prompt_expert
         (scripted [Text (py "A"); Text NA; Text (py "B")])
         sample_model (py "pages 1-10") (py "pages 11-20")
         (py "pages 21-") (py "Taxes") initial_state)
  = Ret (py "A" ++ [nl; nl] ++ py "B").
Proof. vm_compute. reflexivity. Qed.

(* ================================================================== *)
(** * One document, and the batch *)
(* ================================================================== *)

Lemma no_failed_query_app (a b : list Event) :
  no_failed_query (a ++ b) = no_failed_query a && no_failed_query b.
Proof.
  unfold no_failed_query. rewrite existsb_app. apply negb_orb.
Qed.

(** Events of a step that came after the events of an earlier step. *)
Lemma outcome_events_after {A : Type} (out : outcome A)
    (before evs : list Event) :
  no_failed_query before = true ->
  outcome_events out evs -> outcome_events out (before ++ evs).
Proof.
  intros Hb. destruct out as [a|e]; simpl.
  - intros H. now rewrite no_failed_query_app, Hb, H.
  - intros (evs0 & model & tier & prompt & content & -> & H0).
    exists (before ++ evs0), model, tier, prompt, content. split.
    + now rewrite <- app_assoc.
    + now rewrite no_failed_query_app, Hb, H0.
Qed.

Section DocumentFacts.

Variable client : nat -> str -> Request -> Response.
Variable fitz_open : str -> outcome (list Page).

Lemma process_prompt_events (model : str) (parts : DocumentTextParts)
    (prompt : str) (st st' : State) (out : outcome str) :
  process_prompt client model parts prompt st = (out, st') ->
  exists evs,
    trace st' = trace st ++ evs
    /\ claude_model st' = claude_model st
    /\ outcome_events out evs.
Proof.
  assert (forall text,
             process_prompt_flat client model text prompt st = (out, st') ->
             exists evs,
               trace st' = trace st ++ evs
               /\ claude_model st' = claude_model st
               /\ outcome_events out evs) as Hflat.
  { intros text. unfold process_prompt_flat. run_monad.
    destruct (client (requests_so_far (trace st)) model
                     (ReqPrompt Whole prompt text)) as [raw|e];
      intros H; close_run H; [reflexivity|].
    exists [], model, Whole, prompt, text. now split. }
  destruct parts as [p s t|text|err]; simpl; try apply Hflat.
  intros H.
  destruct (process_prompt_expert_run client model p s t prompt st st' out H)
    as (evs & Etr & Em & R).
  exists evs. split; [exact Etr|]. split; [exact Em|].
  inversion R; subst; simpl; try reflexivity.
  - exists [], model, Primary, prompt, p. now split.
  - eexists [_], model, Secondary, prompt, s. now split.
  - eexists [_; _; _], model, Tertiary, prompt, t. now split.
Qed.

Lemma process_prompts_events (model : str) (parts : DocumentTextParts)
    (todo : list str) :
  forall (results : dict) (st st' : State) (out : outcome dict),
    process_prompts client model parts todo results st = (out, st') ->
    exists evs,
      trace st' = trace st ++ evs
      /\ claude_model st' = claude_model st
      /\ outcome_events out evs.
Proof.
  induction todo as [|prompt rest IH]; intros results st st' out; simpl.
  - unfold ret. intros H. inversion H; subst.
    exists []. rewrite app_nil_r. now repeat split.
  - unfold bind at 1.
    destruct (process_prompt client model parts prompt st) as [o st1] eqn:E1.
    destruct (process_prompt_events model parts prompt st st1 o E1)
      as (evs1 & Etr1 & Em1 & O1).
    destruct o as [result|e].
    + unfold bind at 1, sleep. intros H.
      destruct (IH _ _ _ _ H) as (evs2 & Etr2 & Em2 & O2).
      simpl in Etr2, Em2, O1.
      exists (evs1 ++ EvSleep 1 :: evs2). split; [|split].
      * rewrite Etr2, Etr1, <- !app_assoc. reflexivity.
      * congruence.
      * apply outcome_events_after; [exact O1|].
        now apply (outcome_events_after out [EvSleep 1] evs2).
    + intros H. inversion H; subst. exists evs1. now repeat split.
Qed.

(** The model probes never raise and make no tier query. *)
Lemma try_models_run (models : list str) :
  forall st, exists model st' evs,
    try_models client models st = (Ret model, st')
    /\ trace st' = trace st ++ evs
    /\ no_failed_query evs = true.
Proof.
  induction models as [|m rest IH]; intros st; simpl.
  - exists (py "claude-3-sonnet-20240229"), st, [].
    rewrite app_nil_r. now repeat split.
  - unfold try_except, bind, messages_create, ret.
    destruct (client (requests_so_far (trace st)) m ReqProbe) as [text|e].
    + eexists m, _, [_]. now repeat split.
    + destruct (IH (record_event (EvRequest m ReqProbe (Failure e)) st))
        as (model & st' & evs & E & Etr & Hok).
      rewrite E. exists model, st', (EvRequest m ReqProbe (Failure e) :: evs).
      split; [reflexivity|]. split; [|exact Hok].
      rewrite Etr. simpl. now rewrite <- app_assoc.
Qed.

(** The [try] block of a document: it returns with no failed tier
    query, or raises at the first one, which is its last event. *)
Lemma process_document_body_events (document_path : str)
    (parts : DocumentTextParts) (st st' : State) (out : outcome DocResult) :
  process_document_body client document_path parts st = (out, st') ->
  exists evs, trace st' = trace st ++ evs /\ outcome_events out evs.
Proof.
  unfold process_document_body.
  unfold bind at 1, get_claude_model.
  assert (forall model st1 pre,
             trace st1 = trace st ++ pre ->
             no_failed_query pre = true ->
             (_ <- reset_claude_session client model ;;
              results <- process_prompts client model parts prompts [] ;;
              ret (mkDocResult (basename document_path) document_path
                     (combine_responses results) (Some results))) st1
             = (out, st') ->
             exists evs, trace st' = trace st ++ evs
                         /\ outcome_events out evs) as Hrest.
  { intros model st1 pre Etr1 Hpre.
    unfold bind at 1, reset_claude_session, try_except, bind at 1,
      messages_create, ret.
    set (rr := client (requests_so_far (trace st1)) model ReqReset).
    set (st2 := record_event (EvRequest model ReqReset rr) st1).
    set (pre2 := pre ++ [EvRequest model ReqReset rr]).
    assert (trace st2 = trace st ++ pre2) as Etr2
        by (unfold st2, pre2; simpl; rewrite Etr1, <- app_assoc;
            reflexivity).
    assert (no_failed_query pre2 = true) as Hpre2
        by (unfold pre2; rewrite no_failed_query_app, Hpre; reflexivity).
    clearbody st2 pre2. unfold bind.
    destruct rr;
      (destruct (process_prompts client model parts prompts [] st2)
         as [o s2] eqn:E;
       destruct (process_prompts_events model parts prompts [] st2 s2 o E)
         as (evs & Etr & _ & O);
       intros H; exists (pre2 ++ evs); split;
       [ destruct o; inversion H; subst; rewrite Etr, Etr2, <- app_assoc;
         reflexivity
       | apply outcome_events_after; [exact Hpre2|];
         destruct o; inversion H; subst; exact O ]). }
  destruct (claude_model st) as [model|] eqn:Em.
  - unfold bind at 1, ret at 1. intros H.
    apply (Hrest model st []); [now rewrite app_nil_r | reflexivity | exact H].
  - unfold bind at 1, bind at 1, get_latest_claude_model, try_except.
    destruct (try_models_run preferred_models st)
      as (model & st1 & evs & E & Etr & Hok).
    rewrite E. unfold set_claude_model, bind at 1, ret at 1. intros H.
    apply (Hrest model (mkState (trace st1) (Some model)) evs);
      [exact Etr | exact Hok | exact H].
Qed.

End DocumentFacts.

Lemma issued_same (st : State) : issued st st = [].
Proof. apply issued_app. now rewrite app_nil_r. Qed.

Section DocumentClaims.

Variable client : nat -> str -> Request -> Response.
Variable fitz_open : str -> outcome (list Page).

(** The paths whose extraction fails: files that are not PDF files and
    files that cannot be opened. *)
Lemma extraction_errors (file_path : str) :
  (endswith (lower file_path) (py ".pdf") = false ->
   is_error (extract_text_from_file fitz_open file_path) = true)
  /\ (forall e, fitz_open file_path = Raise e ->
                is_error (extract_text_from_file fitz_open file_path) = true).
Proof.
  unfold extract_text_from_file, extract_text_from_pdf. split.
  - intros ->. reflexivity.
  - intros e ->. now destruct (endswith (lower file_path) (py ".pdf")).
Qed.

(** C8, as the code has it: a document whose text extraction fails is
    given up before any request is made; [process_document_with_claude]
    returns [None], and the batch loop goes on to the next document
    without adding anything to the results from which the report is
    written. *)
Theorem extraction_failure_skipped (document_path : str) (st : State) :
  is_error (extract_text_from_file fitz_open document_path) = true ->
  process_document_with_claude client fitz_open document_path st = (None, st)
  /\ issued st (snd (process_document_with_claude client fitz_open
                       document_path st)) = []
  /\ forall (rest : list str) (results : list DocResult),
       process_documents_loop client fitz_open (document_path :: rest)
                              results st
       = process_documents_loop client fitz_open rest results
                                (record_event (EvSleep 1) st).
Proof.
  intros Herr.
  assert (process_document_with_claude client fitz_open document_path st
          = (None, st)) as E
      by (unfold process_document_with_claude; now rewrite Herr).
  split; [exact E|]. split.
  - rewrite E. apply issued_same.
  - intros rest results. simpl. now rewrite E.
Qed.

(** Results already gathered stay in the results of the batch. *)
Lemma results_kept (document_paths : list str) :
  forall (results : list DocResult) (st : State) (r : DocResult),
    In r results ->
    In r (fst (process_documents_loop client fitz_open document_paths
                 results st)).
Proof.
  induction document_paths as [|p rest IH]; intros results st r Hin; simpl.
  - exact Hin.
  - destruct (process_document_with_claude client fitz_open p st)
      as [[r'|] st1]; apply IH; [|exact Hin].
    apply in_app_iff. now left.
Qed.

(** C9: when a tier query raises while a document is processed, that
    query is the last thing done for the document (no later topic is
    taken up); the document's result is recorded as failed: its response
    is "Error: " followed by the message of the exception, it carries the
    path and the name of the document and no individual responses; and
    the batch loop goes on with the documents that follow, that result
    added to the results, where it stays. *)
Theorem failed_query_isolated (doc_path : str) (st st' : State)
    (result : option DocResult) :
  process_document_with_claude client fitz_open doc_path st
  = (result, st') ->
  no_failed_query (issued st st') = false ->
  exists e evs0 model tier prompt content r,
    issued st st'
    = evs0 ++ [EvRequest model (ReqPrompt tier prompt content) (Failure e)]
    /\ no_failed_query evs0 = true
    /\ result = Some r
    /\ response r = py "Error: " ++ e
    /\ document_path r = doc_path
    /\ document_name r = basename doc_path
    /\ individual_responses r = None
    /\ forall (rest : list str) (results : list DocResult),
         process_documents_loop client fitz_open (doc_path :: rest)
                                results st
         = process_documents_loop client fitz_open rest (results ++ [r])
                                  (record_event (EvSleep 1) st')
         /\ In r (fst (process_documents_loop client fitz_open
                         (doc_path :: rest) results st)).
Proof.
  intros Hrun Hfail. pose proof Hrun as Hdoc.
  unfold process_document_with_claude in Hrun.
  destruct (is_error (extract_text_from_file fitz_open doc_path)).
  { inversion Hrun; subst. rewrite issued_same in Hfail. discriminate. }
  destruct (process_document_body client doc_path
              (extract_text_from_file fitz_open doc_path) st)
    as [out st1] eqn:Ebody.
  destruct (process_document_body_events client doc_path
              (extract_text_from_file fitz_open doc_path) st st1 out
              Ebody) as (evs & Etr & O).
  destruct out as [r|e]; inversion Hrun; subst;
    rewrite (issued_app st st' evs Etr) in *; simpl in O.
  - congruence.
  - destruct O as (evs0 & model & tier & prompt & content & Eevs & Hok).
    exists e, evs0, model, tier, prompt, content,
      (error_result doc_path e).
    split; [exact Eevs|]. split; [exact Hok|].
    split; [reflexivity|]. split; [reflexivity|].
    split; [reflexivity|]. split; [reflexivity|].
    split; [reflexivity|].
    intros rest results.
    assert (process_documents_loop client fitz_open (doc_path :: rest)
              results st
            = process_documents_loop client fitz_open rest
                (results ++ [error_result doc_path e])
                (record_event (EvSleep 1) st')) as Eloop
        by (simpl; now rewrite Hdoc).
    split; [exact Eloop|].
    rewrite Eloop. apply results_kept. apply in_app_iff. right. now left.
Qed.

End DocumentClaims.

Lemma extraction_failure_skipped_witness :
  process_document_with_claude (scripted []) sample_open missing_path
                               initial_state
  = (None, initial_state).
Proof.
  refine (proj1 (extraction_failure_skipped (scripted []) sample_open
                   missing_path initial_state _)).
  vm_compute. reflexivity.
Defined.

(** C8 as stated fails: in a batch of an unreadable file and a readable
    one, the results handed to the report writer hold one entry, for the
    readable file, and none for the file whose extraction failed. *)
Lemma failed_extraction_not_reported :
  let results := fst (process_documents (scripted []) sample_open
                        [missing_path; deposition_path] initial_state) in
  is_error (extract_text_from_file sample_open missing_path) = true
  /\ map document_path results = [deposition_path]
  /\ ~ exists r, In r results /\ document_path r = missing_path.
Proof.
  split; [vm_compute; reflexivity|].
  split; [vm_compute; reflexivity|].
  intros (r & Hin & Hpath).
  apply (in_map document_path) in Hin. rewrite Hpath in Hin.
  vm_compute in Hin. destruct Hin as [Hin|[]]. discriminate.
Qed.

Lemma failed_query_isolated_witness :
  exists e evs0 model tier prompt content r,
    issued initial_state
      (snd (process_document_with_claude (failing_at 3 long_answer)
              sample_open deposition_path initial_state))
    = evs0 ++ [EvRequest model (ReqPrompt tier prompt content) (Failure e)]
    /\ no_failed_query evs0 = true
    /\ fst (process_document_with_claude (failing_at 3 long_answer)
              sample_open deposition_path initial_state)
       = Some r
    /\ response r = py "Error: " ++ e
    /\ document_path r = deposition_path
    /\ document_name r = basename deposition_path
    /\ individual_responses r = None
    /\ forall (rest : list str) (results : list DocResult),
         process_documents_loop (failing_at 3 long_answer) sample_open
                                (deposition_path :: rest) results
                                initial_state
         = process_documents_loop (failing_at 3 long_answer) sample_open rest
             (results ++ [r])
             (record_event (EvSleep 1)
                (snd (process_document_with_claude
                        (failing_at 3 long_answer) sample_open
                        deposition_path initial_state)))
         /\ In r (fst (process_documents_loop (failing_at 3 long_answer)
                         sample_open (deposition_path :: rest) results
                         initial_state)).
Proof.
  refine (failed_query_isolated (failing_at 3 long_answer) sample_open
            deposition_path initial_state _ _ _ _).
  - apply surjective_pairing.
  - vm_compute. reflexivity.
Defined.

(** Fault containment on two documents: the second topic of the first
    document raises; the first document is recorded as failed with the
    message, the second is processed with all its thirteen topics. *)
Lemma fault_containment_example :
  let results := fst (process_documents (failing_at 3 long_answer)
                        sample_open [deposition_path; expert_path]
                        initial_state) in
  map document_path results = [deposition_path; expert_path]
  /\ option_map response (hd_error results)
     = Some (py "Error: rate limit exceeded")
  /\ map answered_prompts results = [0; 13].
Proof. repeat split; vm_compute; reflexivity. Qed.

(** C7 at an expert report whose primary answer is the sentinel: the
    secondary request follows the primary request with no sleep between
    them, so the requests of the topic are not paced. *)
Lemma escalation_not_paced :
  let st' := snd (process_prompt_expert (scripted []) sample_model
                    (py "pages 1-10") (py "pages 11-20") (py "pages 21-")
                    (py "Taxes") initial_state) in
  issued initial_state st'
  = [EvRequest sample_model
       (ReqPrompt Primary (py "Taxes") (py "pages 1-10")) (Text NA);
     EvRequest sample_model
       (ReqPrompt Secondary (py "Taxes") (py "pages 11-20")) (Text NA);
     EvSleep 1;
     EvRequest sample_model
       (ReqPrompt Tertiary (py "Taxes") (py "pages 21-")) (Text NA);
     EvSleep 1]
  /\ paced (issued initial_state st') = false
  /\ paced (trace (snd (process_document_with_claude (scripted [])
                          sample_open expert_path initial_state))) = false.
Proof. repeat split; vm_compute; reflexivity. Qed.

Section PacingFacts.

Variable client : nat -> str -> Request -> Response.

(** Whenever the secondary tier is queried, its request is the event
    that follows the primary request. *)
Lemma secondary_follows_at_once (model p s t prompt : str) (st st' : State)
    (out : outcome str) :
  process_prompt_expert client model p s t prompt st = (out, st') ->
  queried Secondary (issued st st') = true ->
  paced (issued st st') = false
  /\ exists r1 r2 rest,
       issued st st'
       = EvRequest model (ReqPrompt Primary prompt p) r1
         :: EvRequest model (ReqPrompt Secondary prompt s) r2 :: rest.
Proof.
  intros Hrun Hq.
  destruct (process_prompt_expert_run client model p s t prompt st st' out
              Hrun) as (evs & Etr & _ & R).
  rewrite (issued_app st st' evs Etr) in *.
  inversion R; subst; simpl in Hq; try discriminate;
    (split; [reflexivity | now eexists _, _, _]).
Qed.

(** A document read in one piece is sent whole, once for each topic. *)
Lemma flat_prompt_single_query (model text prompt : str) (st : State) :
  exists resp,
    issued st (snd (process_prompt client model (FlatParts text) prompt st))
    = [EvRequest model (ReqPrompt Whole prompt text) resp].
Proof.
  simpl. unfold process_prompt_flat. run_monad.
  exists (client (requests_so_far (trace st)) model
                 (ReqPrompt Whole prompt text)).
  destruct (client (requests_so_far (trace st)) model
                   (ReqPrompt Whole prompt text));
    now apply issued_app.
Qed.

End PacingFacts.

(* ================================================================== *)
(** * More on the text extraction *)
(* ================================================================== *)

Lemma read_pages_ext (d1 d2 : list Page) (page_nums : list nat) :
  (forall n, In n page_nums -> nth_error d1 n = nth_error d2 n) ->
  forall text, read_pages d1 page_nums text = read_pages d2 page_nums text.
Proof.
  induction page_nums as [|n rest IH]; intros H text; simpl; [reflexivity|].
  rewrite <- (H n (or_introl eq_refl)).
  destruct (nth_error d1 n) as [[page_text|]|];
    apply IH; intros m Hm; apply H; now right.
Qed.

Lemma in_range (a b n : nat) : In n (range a b) -> a <= n < b.
Proof. unfold range. rewrite in_seq. lia. Qed.

(** The pages past the cap are never looked at. *)
Lemma read_pages_capped (doc : list Page) (max_pages a b : nat) :
  b <= max_pages ->
  read_pages (firstn max_pages doc) (range a b) []
  = read_pages doc (range a b) [].
Proof.
  intros Hb. apply read_pages_ext. intros n Hn. apply in_range in Hn.
  rewrite nth_error_firstn.
  destruct (Nat.ltb_spec n max_pages); [reflexivity | lia].
Qed.

Section MoreExtractionFacts.

Variable fitz_open : str -> outcome (list Page).

(** X2: an expert report of at most ten pages has all its text in the
    primary tier; the secondary and the tertiary tier are empty. *)
Theorem short_expert_report (file_path : str) (doc : list Page) :
  str_in (py "Expert Reports") file_path = true ->
  fitz_open file_path = Ret doc ->
  length doc <= 10 ->
  extract_text_from_pdf fitz_open file_path max_pages_default
  = ExpertParts (extracted_text doc max_pages_default) [] [].
Proof.
  intros Hexp Hopen Hlen. unfold extract_text_from_pdf.
  rewrite Hopen, Hexp. unfold max_pages_default in *.
  rewrite (Nat.min_l (length doc) 250) by lia.
  rewrite (Nat.min_r 10 (length doc)) by lia.
  rewrite (range_empty 10), (range_empty 20) by lia. simpl read_pages.
  pose proof (read_all_pages doc 250) as E.
  rewrite (Nat.min_l (length doc) 250) in E by lia. now rewrite E.
Qed.

(** An expert report of at most twenty pages has an empty tertiary
    tier. *)
Theorem medium_expert_report (file_path : str) (doc : list Page) :
  str_in (py "Expert Reports") file_path = true ->
  fitz_open file_path = Ret doc ->
  length doc <= 20 ->
  exists p s,
    extract_text_from_pdf fitz_open file_path max_pages_default
    = ExpertParts p s []
    /\ p ++ s = extracted_text doc max_pages_default.
Proof.
  intros Hexp Hopen Hlen. unfold extract_text_from_pdf.
  rewrite Hopen, Hexp.
  pose proof (tiers_partition doc (Nat.min (length doc) max_pages_default))
    as Hsum.
  rewrite read_all_pages in Hsum.
  set (page_count := Nat.min (length doc) max_pages_default) in *.
  assert (page_count <= 20) as Hpc
      by (pose proof (Nat.le_min_l (length doc) max_pages_default); lia).
  rewrite (range_empty 20 page_count Hpc) in *.
  simpl read_pages in *. rewrite app_nil_r in Hsum.
  eexists _, _. split; [reflexivity | exact Hsum].
Qed.

(** X4: [extract_text_from_file] gives an error exactly for a path that does
    not end in ".pdf", whatever the letter case, and for a file that
    [fitz.open] cannot open. *)
Theorem extraction_error_iff (file_path : str) :
  is_error (extract_text_from_file fitz_open file_path) = true <->
  endswith (lower file_path) (py ".pdf") = false
  \/ exists e, fitz_open file_path = Raise e.
Proof.
  unfold extract_text_from_file, extract_text_from_pdf. split.
  - destruct (endswith (lower file_path) (py ".pdf")); [|now left].
    destruct (fitz_open file_path) as [doc|e]; [|right; now exists e].
    destruct (str_in (py "Expert Reports") file_path); discriminate.
  - intros [->|(e & ->)]; [reflexivity|].
    now destruct (endswith (lower file_path) (py ".pdf")).
Qed.

End MoreExtractionFacts.

(** X3: the extraction of a file is the extraction of its first
    [max_pages] pages. *)
Theorem extraction_page_cap
    (open_whole open_capped : str -> outcome (list Page))
    (file_path : str) (doc : list Page) (max_pages : nat) :
  open_whole file_path = Ret doc ->
  open_capped file_path = Ret (firstn max_pages doc) ->
  extract_text_from_pdf open_capped file_path max_pages
  = extract_text_from_pdf open_whole file_path max_pages.
Proof.
  intros Hw Hc. unfold extract_text_from_pdf. rewrite Hw, Hc.
  assert (Nat.min (length (firstn max_pages doc)) max_pages
          = Nat.min (length doc) max_pages) as El
      by (rewrite length_firstn; lia).
  rewrite El.
  set (page_count := Nat.min (length doc) max_pages).
  assert (page_count <= max_pages) as Hpc by apply Nat.le_min_r.
  rewrite !read_pages_capped; try reflexivity; lia.
Qed.

Lemma short_expert_report_witness :
  extract_text_from_pdf sample_open expert_path max_pages_default
  = ExpertParts (extracted_text sample_pdf max_pages_default) [] [].
Proof.
  apply (short_expert_report sample_open expert_path sample_pdf).
  - vm_compute. reflexivity.
  - vm_compute. reflexivity.
  - simpl. lia.
Defined.

Lemma medium_expert_report_witness :
  exists p s,
    extract_text_from_pdf sample_open expert_path max_pages_default
    = ExpertParts p s []
    /\ p ++ s = extracted_text sample_pdf max_pages_default.
Proof.
  apply (medium_expert_report sample_open expert_path sample_pdf).
  - vm_compute. reflexivity.
  - vm_compute. reflexivity.
  - simpl. lia.
Defined.

Lemma expert_document_three_tiers_witness :
  exists p s t,
    extract_text_from_pdf sample_open expert_path max_pages_default
    = ExpertParts p s t
    /\ p ++ s ++ t = extracted_text sample_pdf max_pages_default.
Proof.
  apply (expert_document_three_tiers sample_open expert_path sample_pdf).
  - vm_compute. reflexivity.
  - vm_compute. reflexivity.
Defined.

Lemma extraction_page_cap_witness :
  extract_text_from_pdf (fun _ => Ret (firstn 2 sample_pdf)) expert_path 2
  = extract_text_from_pdf sample_open expert_path 2.
Proof.
  apply (extraction_page_cap sample_open (fun _ => Ret (firstn 2 sample_pdf))
           expert_path sample_pdf 2); reflexivity.
Defined.

Lemma startswith_cons (x p : str) (a : ascii) :
  startswith x (a :: p) = true -> exists r, x = a :: r.
Proof.
  unfold startswith. destruct x as [|c r]; [discriminate|].
  cbn [strip_prefix]. destruct (eqc a c) eqn:E; [|discriminate].
  apply eqc_eq in E. subst c. intros _. now exists r.
Qed.

(** A path with one of the other valid extensions does not end in
    ".pdf". *)
Lemma other_extension_not_pdf (s ext : str) :
  In ext (tl valid_extensions) ->
  endswith s ext = true -> endswith s (py ".pdf") = false.
Proof.
  intros Hext. unfold endswith.
  simpl in Hext. destruct Hext as [<-|[<-|[<-|[]]]]; intros H;
    apply startswith_cons in H; destruct H as (r & ->); reflexivity.
Qed.

(** X5: a Word or text file, which the document search accepts, is refused
    by the extraction with the message for unsupported formats. *)
Theorem unsupported_format (fitz_open : str -> outcome (list Page))
    (file_path ext : str) :
  In ext (map py [".docx"; ".doc"; ".txt"]%string) ->
  endswith (lower file_path) ext = true ->
  endswith_any (lower file_path) valid_extensions = true
  /\ extract_text_from_file fitz_open file_path
     = ErrorParts (py "Unsupported file format: " ++ basename file_path
                   ++ py ". Only PDF files are supported.").
Proof.
  intros Hext Hend. split.
  - unfold endswith_any. apply existsb_exists. exists ext.
    split; [now right | exact Hend].
  - unfold extract_text_from_file.
    now rewrite (other_extension_not_pdf (lower file_path) ext Hext Hend).
Qed.

Lemma unsupported_format_witness :
  endswith_any (lower notes_path) valid_extensions = true
  /\ extract_text_from_file sample_open notes_path
     = ErrorParts (py "Unsupported file format: " ++ basename notes_path
                   ++ py ". Only PDF files are supported.").
Proof.
  apply (unsupported_format sample_open notes_path (py ".txt")).
  - simpl. right. right. left. reflexivity.
  - vm_compute. reflexivity.
Defined.

(* ================================================================== *)
(** * Finding the documents *)
(* ================================================================== *)

Lemma fold_left_invariant {A B : Type} (P : A -> Prop) (f : A -> B -> A)
    (l : list B) :
  (forall acc x, P acc -> P (f acc x)) ->
  forall init, P init -> P (fold_left f l init).
Proof.
  intros Hf. induction l as [|x l IH]; intros init Hi; simpl; auto.
Qed.

Lemma in_set_spec (element : str) (processed_paths : list str) :
  in_set element processed_paths = true <-> In element processed_paths.
Proof.
  unfold in_set. rewrite existsb_exists. split.
  - intros (x & Hx & E). apply str_eqb_eq in E. now subst.
  - intros H. exists element. split; [exact H | now apply str_eqb_eq].
Qed.

Lemma NoDup_snoc {A : Type} (l : list A) (x : A) :
  NoDup l -> ~ In x l -> NoDup (l ++ [x]).
Proof.
  intros Hl Hx. apply NoDup_app; [exact Hl | repeat constructor; auto |].
  intros a Ha [<-|[]]. contradiction.
Qed.

Section DiscoveryFacts.

Variable isfile isdir : str -> bool.
Variable walk : str -> list (str * list str).
Variable path_join : str -> str -> str.
Variable abspath : str -> str.

Lemma add_document_ok (found : list str * list str) (file_path : str) :
  found_ok abspath found ->
  found_ok abspath (add_document abspath found file_path).
Proof.
  destruct found as [docs seen]. unfold found_ok, add_document. simpl.
  intros [E Hnd].
  destruct (in_set (abspath file_path) seen) eqn:Hin; simpl; [now split|].
  split.
  - now rewrite map_app, E.
  - apply NoDup_snoc; [exact Hnd|].
    intros H. apply in_set_spec in H. congruence.
Qed.

Lemma add_directory_ok (found : list str * list str)
    (entry : str * list str) :
  found_ok abspath found ->
  found_ok abspath (add_directory path_join abspath found entry).
Proof.
  destruct entry as [root files]. unfold add_directory.
  apply fold_left_invariant. intros acc file Hacc.
  destruct (endswith_any (lower file) valid_extensions);
    [now apply add_document_ok | exact Hacc].
Qed.

Lemma add_item_ok (found : list str * list str) (item : str) :
  found_ok abspath found ->
  found_ok abspath (add_item isfile isdir walk path_join abspath found item).
Proof.
  intros H. unfold add_item.
  destruct (isfile item && endswith_any (lower item) valid_extensions).
  - now apply add_document_ok.
  - destruct (isdir item); [|exact H].
    apply fold_left_invariant; [|exact H].
    intros acc entry. apply add_directory_ok.
Qed.

(** X6: no document is returned twice: the absolute paths of the documents
    found are all different, however often a file was selected, alone or
    through a folder. *)
Theorem document_paths_unique (selected_items : list str) :
  NoDup (map abspath
           (get_all_document_paths isfile isdir walk path_join abspath
              selected_items)).
Proof.
  unfold get_all_document_paths.
  assert (found_ok abspath (fold_left (add_item isfile isdir walk path_join abspath)
                      selected_items ([], []))) as [E Hnd].
  { apply fold_left_invariant.
    - intros acc item. apply add_item_ok.
    - split; [reflexivity | constructor]. }
  now rewrite <- E.
Qed.

Lemma add_document_keeps (path : str) (found : list str * list str)
    (file_path : str) :
  seen_in path found -> seen_in path (add_document abspath found file_path).
Proof.
  destruct found as [docs seen]. unfold seen_in, add_document. simpl.
  destruct (in_set (abspath file_path) seen); simpl; [auto|].
  intros H. apply in_app_iff. now left.
Qed.

Lemma add_item_keeps (path : str) (found : list str * list str)
    (item : str) :
  seen_in path found ->
  seen_in path (add_item isfile isdir walk path_join abspath found item).
Proof.
  intros H. unfold add_item.
  destruct (isfile item && endswith_any (lower item) valid_extensions).
  - now apply add_document_keeps.
  - destruct (isdir item); [|exact H].
    apply fold_left_invariant; [|exact H].
    intros acc [root files] Hacc. unfold add_directory.
    apply fold_left_invariant; [|exact Hacc].
    intros acc' file Hacc'.
    destruct (endswith_any (lower file) valid_extensions);
      [now apply add_document_keeps | exact Hacc'].
Qed.

Lemma add_document_sees (found : list str * list str) (file_path : str) :
  seen_in (abspath file_path) (add_document abspath found file_path).
Proof.
  destruct found as [docs seen]. unfold seen_in, add_document. simpl.
  destruct (in_set (abspath file_path) seen) eqn:Hin; simpl.
  - now apply in_set_spec.
  - apply in_app_iff. right. now left.
Qed.

(** X7: every selected file with a valid extension is among the documents
    found, under its own path or under another path of the same file. *)
Theorem selected_file_found (selected_items : list str) (item : str) :
  In item selected_items ->
  isfile item = true ->
  endswith_any (lower item) valid_extensions = true ->
  In (abspath item)
     (map abspath
        (get_all_document_paths isfile isdir walk path_join abspath
           selected_items)).
Proof.
  intros Hin Hfile Hext. unfold get_all_document_paths.
  assert (forall items found,
             found_ok abspath found ->
             (In item items \/ seen_in (abspath item) found) ->
             seen_in (abspath item)
               (fold_left (add_item isfile isdir walk path_join abspath)
                  items found)
             /\ found_ok abspath
                  (fold_left (add_item isfile isdir walk path_join abspath)
                     items found)) as Hloop.
  { induction items as [|x items IH]; intros found Hok Hcase; simpl.
    - destruct Hcase as [[]|H]. now split.
    - apply IH; [now apply add_item_ok|].
      destruct Hcase as [[->|Hlater]|Hseen].
      + right. unfold add_item. rewrite Hfile, Hext. simpl.
        apply add_document_sees.
      + now left.
      + right. now apply add_item_keeps. }
  destruct (Hloop selected_items ([], [])) as [Hseen [E _]].
  - split; [reflexivity | constructor].
  - now left.
  - unfold seen_in in Hseen. now rewrite <- E.
Qed.

End DiscoveryFacts.

Lemma selected_file_found_witness :
  In (py "/case/doe.pdf")
     (map (fun p => p)
        (get_all_document_paths sample_isfile sample_isdir sample_walk
           sample_join (fun p => p)
           [py "/case"; py "/case/doe.pdf"])).
Proof.
  apply (selected_file_found sample_isfile sample_isdir sample_walk
           sample_join (fun p => p) [py "/case"; py "/case/doe.pdf"]
           (py "/case/doe.pdf")).
  - right. left. reflexivity.
  - vm_compute. reflexivity.
  - vm_compute. reflexivity.
Defined.

(* ================================================================== *)
(** * More on the cleaning of answers *)
(* ================================================================== *)

Lemma str_in_strip_iff (raw : str) :
  str_in NA (strip raw) = str_in NA raw.
Proof.
  destruct NA_edges as [Hh Hl].
  destruct (str_in NA raw) eqn:E.
  - now apply str_in_strip.
  - destruct (str_in NA (strip raw)) eqn:E'; [|reflexivity].
    apply str_in_of_strip in E'. congruence.
Qed.

(** X8: [clean_claude_response] gives the sentinel for an answer with "N/A"
    in it and the stripped answer otherwise, and cleaning a cleaned answer
    changes nothing. *)
Theorem clean_claude_response_spec (raw : str) :
  clean_claude_response raw = (if str_in NA raw then NA else strip raw)
  /\ clean_claude_response (clean_claude_response raw)
     = clean_claude_response raw.
Proof.
  assert (forall x, clean_claude_response x
                    = if str_in NA x then NA else strip x) as Hspec.
  { intros x. unfold clean_claude_response. rewrite str_in_strip_iff.
    destruct (str_in NA x); [|reflexivity].
    destruct (str_eqb (strip x) NA) eqn:E; [|reflexivity].
    now apply str_eqb_eq in E. }
  split; [apply Hspec|].
  rewrite (Hspec raw). destruct (str_in NA raw) eqn:E; [reflexivity|].
  rewrite Hspec, str_in_strip_iff, E. apply strip_idem.
Qed.

Lemma isspace_lower_char (c : ascii) : isspace (lower_char c) = isspace c.
Proof. destruct c as [[] [] [] [] [] [] [] []]; reflexivity. Qed.

Lemma lstrip_lower (s : str) : lstrip (lower s) = lower (lstrip s).
Proof.
  induction s as [|c s IH]; [reflexivity|].
  simpl. rewrite isspace_lower_char.
  destruct (isspace c); [exact IH | reflexivity].
Qed.

Lemma rev_lower (s : str) : rev (lower s) = lower (rev s).
Proof. unfold lower. symmetry. apply map_rev. Qed.

Lemma strip_lower (s : str) : strip (lower s) = lower (strip s).
Proof.
  unfold strip, rstrip.
  now rewrite lstrip_lower, rev_lower, lstrip_lower, rev_lower.
Qed.

(** X9: two answers that differ in letter case and in white space at their
    ends only are classified alike. *)
Theorem is_empty_response_insensitive (a b : str) :
  lower (strip a) = lower (strip b) ->
  is_empty_response a = is_empty_response b.
Proof.
  intros H. unfold is_empty_response. now rewrite !strip_lower, H.
Qed.

Lemma is_empty_response_insensitive_witness :
  is_empty_response (py "  THERE IS NO data.  ")
  = is_empty_response (py "there is no data.").
Proof.
  apply is_empty_response_insensitive. vm_compute. reflexivity.
Defined.

Lemma str_in_app_l (w x y : str) :
  str_in w x = true -> str_in w (x ++ y) = true.
Proof.
  intros H. apply str_in_spec in H. destruct H as (pre & post & ->).
  apply str_in_spec. exists pre, (post ++ y). now rewrite <- !app_assoc.
Qed.

Lemma str_in_app_r (w x y : str) :
  str_in w y = true -> str_in w (x ++ y) = true.
Proof.
  intros H. apply str_in_spec in H. destruct H as (pre & post & ->).
  apply str_in_spec. exists (x ++ pre), post. now rewrite <- !app_assoc.
Qed.

Lemma dotstar_sound (s : str) (k : str -> bool) :
  dotstar s k = true -> exists m rest, s = m ++ rest /\ k rest = true.
Proof.
  induction s as [|c s IH]; simpl.
  - rewrite orb_false_r. intros H. now exists [], [].
  - intros H. apply orb_true_iff in H. destruct H as [H|H].
    + now exists [], (c :: s).
    + apply andb_true_iff in H. destruct H as [_ H].
      destruct (IH H) as (m & rest & -> & Hk).
      now exists (c :: m), rest.
Qed.

(** What the matcher accepts splits into a match and a rest that the
    continuation accepts; the match holds every word the pattern always
    has. *)
Lemma re_match_sound (w : str) (r : regex) :
  forall (s : str) (k : str -> bool),
    re_match r s k = true ->
    exists m rest,
      s = m ++ rest /\ k rest = true
      /\ (always_has w r = true -> str_in w m = true).
Proof.
  induction r as [l| |a IHa b IHb|a IHa b IHb]; intros s k H; simpl in *.
  - destruct (strip_prefix l s) as [rest|] eqn:E; [|discriminate].
    apply strip_prefix_spec in E. now exists l, rest.
  - destruct (dotstar_sound s k H) as (m & rest & E & Hk).
    exists m, rest. repeat split; auto. discriminate.
  - apply orb_true_iff in H. destruct H as [H|H].
    + destruct (IHa s k H) as (m & rest & E & Hk & Hw).
      exists m, rest. repeat split; auto.
      intros Hb. apply andb_true_iff in Hb. now apply Hw.
    + destruct (IHb s k H) as (m & rest & E & Hk & Hw).
      exists m, rest. repeat split; auto.
      intros Hb. apply andb_true_iff in Hb. now apply Hw.
  - destruct (IHa s _ H) as (m1 & rest1 & E1 & H1 & Hw1).
    destruct (IHb rest1 k H1) as (m2 & rest2 & E2 & H2 & Hw2).
    exists (m1 ++ m2), rest2. subst. rewrite <- app_assoc.
    repeat split; auto.
    intros Hab. apply orb_true_iff in Hab. destruct Hab as [Ha|Hb].
    + now apply str_in_app_l, Hw1.
    + now apply str_in_app_r, Hw2.
Qed.

Lemma re_search_has (w : str) (r : regex) (s : str) :
  always_has w r = true -> re_search r s = true -> str_in w s = true.
Proof.
  intros Hw. induction s as [|c s IH]; intros H;
    rewrite re_search_unfold in H; apply orb_true_iff in H;
    destruct H as [H|H]; try discriminate.
  - destruct (re_match_sound w r [] _ H) as (m & rest & E & _ & Hm).
    destruct m; [|discriminate]. now apply Hm.
  - destruct (re_match_sound w r (c :: s) _ H) as (m & rest & E & _ & Hm).
    rewrite E. now apply str_in_app_l, Hm.
  - apply (str_in_app_r w [c] s). now apply IH.
Qed.

(** Every pattern goes through the letters "no" or through "find". *)
Lemma empty_patterns_words :
  forallb (fun r => always_has (py "no") r || always_has (py "find") r)
          empty_patterns = true.
Proof. vm_compute. reflexivity. Qed.

(** X10: an answer in which, letter case apart, neither "no" nor "find"
    stands is never classified as empty; without "N/A" in it, it is kept
    as it is. *)
Theorem plain_answer_kept (raw : str) :
  str_in (py "no") (lower raw) = false ->
  str_in (py "find") (lower raw) = false ->
  is_empty_response raw = false
  /\ (str_in NA raw = false -> clean_response raw = raw).
Proof.
  intros Hno Hfind.
  assert (is_empty_response raw = false) as He.
  { destruct (is_empty_response raw) eqn:E; [|reflexivity].
    unfold is_empty_response in E. apply existsb_exists in E.
    destruct E as (r & Hr & Hs).
    pose proof empty_patterns_words as Hall.
    rewrite forallb_forall in Hall. specialize (Hall r Hr).
    apply orb_true_iff in Hall. destruct Hall as [Hw|Hw];
      apply (re_search_has _ r _ Hw) in Hs;
      apply str_in_of_strip in Hs; congruence. }
  split; [exact He|].
  intros Hna. unfold clean_response. now rewrite Hna, He.
Qed.

Lemma plain_answer_kept_witness :
  is_empty_response plain_answer = false
  /\ (str_in NA plain_answer = false -> clean_response plain_answer
                                        = plain_answer).
Proof.
  apply (plain_answer_kept plain_answer); vm_compute; reflexivity.
Defined.

(* ================================================================== *)
(** * The sentinel in stored answers *)
(* ================================================================== *)

Lemma str_in_nil (x : str) : str_in [] x = true.
Proof. apply str_in_spec. now exists [], x. Qed.

(** A needle found in two texts put together around a character that is
    not in the needle is found in one of the two. *)
Lemma str_in_sep (n x y : str) (c : ascii) :
  ~ In c n ->
  str_in n (x ++ c :: y) = true ->
  str_in n x = true \/ str_in n y = true.
Proof.
  intros Hc H. apply str_in_spec in H. destruct H as (pre & post & E).
  symmetry in E. apply app_eq_app in E.
  destruct E as (l & [[Epre Ey]|[Ex En]]).
  - destruct l as [|c' l].
    + destruct n as [|c' n]; [left; apply str_in_nil|].
      simpl in Ey. inversion Ey; subst. exfalso. apply Hc. now left.
    + simpl in Ey. inversion Ey; subst. right.
      apply str_in_spec. now exists l, post.
  - apply app_eq_app in En. destruct En as (l2 & [[En Ecy]|[El Epost]]).
    + destruct l2 as [|c' l2].
      * left. rewrite app_nil_r in En. subst.
        apply str_in_spec. exists pre, []. now rewrite app_nil_r.
      * simpl in Ecy. inversion Ecy; subst. exfalso. apply Hc.
        apply in_app_iff. right. now left.
    + left. subst. apply str_in_spec. now exists pre, l2.
Qed.

Lemma nl_not_in_NA : ~ In nl NA.
Proof. simpl. intros [H|[H|[H|[]]]]; discriminate. Qed.

(** Joining texts without "N/A" by blank lines gives a text without
    "N/A". *)
Lemma join_no_sentinel (xs : list str) :
  Forall (fun x => str_in NA x = false) xs ->
  str_in NA (join blank_line xs) = false.
Proof.
  induction xs as [|x xs IH]; intros HF; [reflexivity|].
  inversion HF as [|? ? Hx HF']; subst.
  destruct xs as [|y xs]; [exact Hx|].
  change (join blank_line (x :: y :: xs))
    with (x ++ nl :: ([] ++ nl :: join blank_line (y :: xs))).
  destruct (str_in NA (x ++ nl :: ([] ++ nl :: join blank_line (y :: xs))))
    eqn:E; [|reflexivity].
  apply (str_in_sep NA x _ nl nl_not_in_NA) in E.
  destruct E as [E|E]; [congruence|].
  apply (str_in_sep NA [] _ nl nl_not_in_NA) in E.
  destruct E as [E|E]; [discriminate|].
  rewrite (IH HF') in E. discriminate.
Qed.

Lemma clean_response_sentinel_or_clean (raw : str) :
  sentinel_or_clean (clean_response raw).
Proof.
  unfold sentinel_or_clean, clean_response.
  destruct (str_in NA raw) eqn:E; simpl; [now left|].
  destruct (is_empty_response raw); [now left | now right].
Qed.

Lemma strip_no_sentinel (x : str) :
  str_in NA x = false -> str_in NA (strip x) = false.
Proof. intros H. now rewrite str_in_strip_iff. Qed.

(** The pieces the merge keeps have no "N/A" in them. *)
Lemma kept_no_sentinel (results : list str) :
  Forall sentinel_or_clean results ->
  Forall (fun x => str_in NA x = false)
         (filter not_sentinel (map strip results)).
Proof.
  intros HF. apply Forall_forall. intros x Hx.
  apply filter_In in Hx. destruct Hx as [Hx Hns].
  apply in_map_iff in Hx. destruct Hx as (r & <- & Hr).
  rewrite Forall_forall in HF. destruct (HF r Hr) as [->|Hclean].
  - discriminate.
  - now apply strip_no_sentinel.
Qed.

Lemma merge_sentinel_or_clean (results : list str) :
  Forall sentinel_or_clean results ->
  sentinel_or_clean (strip (merge_as_stated (map strip results))).
Proof.
  intros HF. pose proof (kept_no_sentinel results HF) as Hk.
  unfold merge_as_stated.
  destruct (filter not_sentinel (map strip results)) as [|k ks] eqn:E.
  - now left.
  - right. apply strip_no_sentinel. now apply join_no_sentinel.
Qed.

Lemma combine_results_sentinel_or_clean (a b c : str) :
  sentinel_or_clean a -> sentinel_or_clean b -> sentinel_or_clean c ->
  sentinel_or_clean (combine_results a b c).
Proof.
  intros Ha Hb Hc. rewrite combine_results_merge.
  apply (merge_sentinel_or_clean [a; b; c]).
  repeat (constructor; [assumption|]). constructor.
Qed.

Lemma empty_sentinel_or_clean : sentinel_or_clean [].
Proof. now right. Qed.

Section SentinelFacts.

Variable client : nat -> str -> Request -> Response.

(** X11: the answer stored for a topic, of an expert report or of any other
    document, is the sentinel or has no "N/A" anywhere in it. *)
Theorem stored_answer_sentinel_or_clean (model : str)
    (parts : DocumentTextParts) (prompt : str) (st st' : State)
    (answer : str) :
  process_prompt client model parts prompt st = (Ret answer, st') ->
  sentinel_or_clean answer.
Proof.
  assert (forall text,
             process_prompt_flat client model text prompt st
             = (Ret answer, st') -> sentinel_or_clean answer) as Hflat.
  { intros text. unfold process_prompt_flat. run_monad.
    destruct (client (requests_so_far (trace st)) model
                     (ReqPrompt Whole prompt text)) as [raw|e];
      intros H; inversion H; subst.
    apply clean_response_sentinel_or_clean. }
  destruct parts as [p s t|text|err]; simpl; try apply Hflat.
  intros H.
  destruct (process_prompt_expert_run client model p s t prompt st st'
              (Ret answer) H) as (evs & _ & _ & R).
  inversion R; subst;
    apply combine_results_sentinel_or_clean;
    try apply clean_response_sentinel_or_clean;
    apply empty_sentinel_or_clean.
Qed.

(** The merged content is the stated merge of the contents of the
    queried tiers, stripped. *)
Lemma merged_stripped_merge (model p s t prompt : str) (st st' : State)
    (merged : str) (evs : list Event) :
  trace st' = trace st ++ evs ->
  escalation_run model p s t prompt evs (Ret merged) ->
  merged = strip (merge_as_stated (tier_contents evs)).
Proof.
  intros _ R.
  inversion R; subst; unfold tier_contents; simpl map;
    rewrite combine_results_merge; change (strip []) with (@nil ascii).
  - match goal with
    | N : needs_secondary _ = false |- _ =>
        unfold needs_secondary in N; apply orb_false_iff in N;
        destruct N as [N _]
    end.
    change [strip (clean_response praw); []; []]
      with (([strip (clean_response praw)] ++ [ [] ]) ++ [ [] ]).
    rewrite merge_pad by apply filter_pad_nonempty.
    rewrite merge_pad; [reflexivity|].
    rewrite (not_sentinel_true (clean_response praw)) by assumption.
    discriminate.
  - match goal with
    | N2 : needs_secondary _ = true, N3 : needs_tertiary _ _ = false |- _ =>
        rewrite (needs_tertiary_after_secondary _ _ N2) in N3
    end.
    change [strip (clean_response praw); strip (clean_response sraw); []]
      with ([strip (clean_response praw); strip (clean_response sraw)]
            ++ [ [] ]).
    rewrite merge_pad; [reflexivity|].
    change [strip (clean_response praw); strip (clean_response sraw)]
      with ([strip (clean_response praw)]
            ++ [strip (clean_response sraw)]).
    rewrite filter_app.
    rewrite (not_sentinel_true (clean_response sraw)) by assumption.
    destruct (filter not_sentinel [strip (clean_response praw)]);
      discriminate.
  - reflexivity.
Qed.

Lemma tier_contents_cleaned (evs : list Event) :
  exists results,
    tier_contents evs = map strip results
    /\ Forall sentinel_or_clean results.
Proof.
  unfold tier_contents.
  exists (map (fun answer => clean_response (snd answer)) (tier_answers evs)).
  split.
  - now rewrite map_map.
  - apply Forall_forall. intros x Hx. apply in_map_iff in Hx.
    destruct Hx as (a & <- & _). apply clean_response_sentinel_or_clean.
Qed.

(** X12: the answer stored for a topic of an expert report is the sentinel
    exactly when every tier that was queried gave the sentinel. *)
Theorem merged_sentinel_iff (model p s t prompt : str) (st st' : State)
    (merged : str) :
  process_prompt_expert client model p s t prompt st = (Ret merged, st') ->
  (merged = NA <->
   Forall (fun content => content = NA) (tier_contents (issued st st'))).
Proof.
  intros Hrun.
  destruct (process_prompt_expert_run client model p s t prompt st st'
              (Ret merged) Hrun) as (evs & Etr & _ & R).
  rewrite (issued_app st st' evs Etr).
  rewrite (merged_stripped_merge model p s t prompt st st' merged evs Etr R).
  destruct (tier_contents_cleaned evs) as (results & -> & HF).
  pose proof (kept_no_sentinel results HF) as Hk.
  unfold merge_as_stated.
  destruct (filter not_sentinel (map strip results)) as [|k ks] eqn:E.
  - split; [intros _|reflexivity].
    apply Forall_forall. intros x Hx.
    destruct (not_sentinel x) eqn:Hns.
    + assert (In x (filter not_sentinel (map strip results))) as Hin
          by (apply filter_In; now split).
      rewrite E in Hin. destruct Hin.
    + unfold not_sentinel in Hns. apply negb_false_iff in Hns.
      now apply str_eqb_eq.
  - split.
    + intros Hna. exfalso.
      assert (str_in NA (strip (join blank_line (k :: ks))) = false) as Hno
          by (apply strip_no_sentinel; now apply join_no_sentinel).
      rewrite Hna in Hno. discriminate.
    + intros Hall. exfalso.
      assert (In k (filter not_sentinel (map strip results))) as Hin
          by (rewrite E; now left).
      apply filter_In in Hin. destruct Hin as [Hin Hns].
      rewrite Forall_forall in Hall. rewrite (Hall k Hin) in Hns.
      discriminate.
Qed.

(** X13: once the secondary tier has answered, the tertiary tier is queried
    exactly when the cleaned secondary answer is the sentinel, whatever
    the primary answer was; and the tertiary tier is never queried
    without the secondary tier. *)
Theorem tertiary_follows_secondary (model p s t prompt : str)
    (st st' : State) (out : outcome str) :
  process_prompt_expert client model p s t prompt st = (out, st') ->
  (queried Tertiary (issued st st') = true ->
   queried Secondary (issued st st') = true)
  /\ forall sraw,
       tier_answer Secondary (issued st st') = Some sraw ->
       (queried Tertiary (issued st st') = true <->
        clean_response sraw = NA).
Proof.
  intros Hrun.
  destruct (process_prompt_expert_run client model p s t prompt st st' out
              Hrun) as (evs & Etr & _ & R).
  rewrite (issued_app st st' evs Etr).
  inversion R; subst; simpl; (split; [congruence|]); intros sraw0 Hs;
    try discriminate; inversion Hs; subst; clear Hs;
    match goal with
    | N2 : needs_secondary _ = true, N3 : needs_tertiary _ _ = _ |- _ =>
        rewrite (needs_tertiary_after_secondary _ _ N2) in N3
    end;
    rewrite <- strip_clean_NA; split; congruence.
Qed.

End SentinelFacts.

Lemma stored_answer_sentinel_or_clean_witness :
  sentinel_or_clean (py "B").
Proof.
  refine (stored_answer_sentinel_or_clean
            (scripted [Text []; Text NA; Text (py "B")]) sample_model
            (ExpertParts (py "pages 1-10") (py "pages 11-20")
                         (py "pages 21-"))
            (py "Taxes") initial_state _ (py "B") _).
  vm_compute. reflexivity.
Defined.

Lemma merged_sentinel_iff_witness :
  NA = NA <->
  Forall (fun content => content = NA)
    (tier_contents
       (issued initial_state
          (snd (process_prompt_expert (scripted []) sample_model
                  (py "pages 1-10") (py "pages 11-20") (py "pages 21-")
                  (py "Taxes") initial_state)))).
Proof.
  refine (merged_sentinel_iff (scripted []) sample_model
            (py "pages 1-10") (py "pages 11-20") (py "pages 21-")
            (py "Taxes") initial_state _ NA _).
  vm_compute. reflexivity.
Defined.

Lemma tertiary_follows_secondary_witness :
  queried Tertiary
    (issued initial_state
       (snd (process_prompt_expert
               (scripted [Text (py "A"); Text NA]) sample_model
               (py "pages 1-10") (py "pages 11-20") (py "pages 21-")
               (py "Taxes") initial_state))) = true <->
  clean_response NA = NA.
Proof.
  refine (proj2 (tertiary_follows_secondary
                   (scripted [Text (py "A"); Text NA]) sample_model
                   (py "pages 1-10") (py "pages 11-20") (py "pages 21-")
                   (py "Taxes") initial_state _ _ _) NA _).
  - apply surjective_pairing.
  - vm_compute. reflexivity.
Defined.

(* ================================================================== *)
(** * The model in use *)
(* ================================================================== *)

Section ModelFacts.

Variable client : nat -> str -> Request -> Response.

Lemma try_models_first (models : list str) :
  forall st, exists model st' evs,
    try_models client models st = (Ret model, st')
    /\ claude_model st' = claude_model st
    /\ trace st' = trace st ++ evs
    /\ ((exists failed later answer evs0,
            models = failed ++ model :: later
            /\ evs = evs0 ++ [EvRequest model ReqProbe (Text answer)]
            /\ Forall2 failed_probe failed evs0)
        \/ (model = py "claude-3-sonnet-20240229"
            /\ Forall2 failed_probe models evs)).
Proof.
  induction models as [|m rest IH]; intros st; simpl.
  - exists (py "claude-3-sonnet-20240229"), st, [].
    rewrite app_nil_r. repeat split. right. split; constructor.
  - unfold try_except, bind, messages_create, ret.
    destruct (client (requests_so_far (trace st)) m ReqProbe) as [text|e].
    + eexists m, _, [_]. repeat split. left.
      exists [], rest, text, []. repeat split. constructor.
    + destruct (IH (record_event (EvRequest m ReqProbe (Failure e)) st))
        as (model & st' & evs & E & Em & Etr & Hcase).
      rewrite E.
      exists model, st', (EvRequest m ReqProbe (Failure e) :: evs).
      repeat split; [exact Em | |].
      * rewrite Etr. simpl. now rewrite <- app_assoc.
      * destruct Hcase as [(failed & later & answer & evs0 & -> & -> & HF)
                          |[-> HF]].
        -- left. exists (m :: failed), later, answer,
             (EvRequest m ReqProbe (Failure e) :: evs0).
           repeat split. constructor; [now exists e | exact HF].
        -- right. split; [reflexivity|].
           constructor; [now exists e | exact HF].
Qed.

(** X14: [get_latest_claude_model] never raises.  It probes the preferred
    models in order and returns the first whose probe is answered,
    without probing the models after it; when every probe raises it
    returns "claude-3-sonnet-20240229". *)
Theorem first_working_model (st : State) :
  exists model st' evs,
    get_latest_claude_model client st = (Ret model, st')
    /\ trace st' = trace st ++ evs
    /\ ((exists failed later answer evs0,
            preferred_models = failed ++ model :: later
            /\ evs = evs0 ++ [EvRequest model ReqProbe (Text answer)]
            /\ Forall2 failed_probe failed evs0)
        \/ (model = py "claude-3-sonnet-20240229"
            /\ Forall2 failed_probe preferred_models evs)).
Proof.
  destruct (try_models_first preferred_models st)
    as (model & st' & evs & E & _ & Etr & Hcase).
  exists model, st', evs. unfold get_latest_claude_model, try_except.
  rewrite E. now repeat split.
Qed.

Lemma Forall2_failed_probe_events (models : list str) (evs : list Event) :
  Forall2 failed_probe models evs ->
  length evs = length models
  /\ forallb is_probe evs = true.
Proof.
  induction 1 as [|m ev models evs (e & ->) _ [IHl IHp]]; [now split|].
  simpl. split; [now rewrite IHl | exact IHp].
Qed.

(** The probes of the model detection: at most three requests, none of
    them a reset or a tier query. *)
Lemma detection_events (st : State) :
  exists model st' evs,
    get_latest_claude_model client st = (Ret model, st')
    /\ claude_model st' = claude_model st
    /\ trace st' = trace st ++ evs
    /\ length evs <= 3
    /\ forallb is_probe evs = true.
Proof.
  destruct (try_models_first preferred_models st)
    as (model & st' & evs & E & Em & Etr & Hcase).
  exists model, st', evs. unfold get_latest_claude_model, try_except.
  rewrite E. repeat split; try assumption.
  - destruct Hcase as [(failed & later & answer & evs0 & Ep & -> & HF)
                      |[_ HF]];
      apply Forall2_failed_probe_events in HF; destruct HF as [Hl _].
    + rewrite length_app, Hl. simpl.
      apply (f_equal (@length str)) in Ep. rewrite length_app in Ep.
      simpl in Ep. lia.
    + rewrite Hl. simpl. lia.
  - destruct Hcase as [(failed & later & answer & evs0 & Ep & -> & HF)
                      |[_ HF]];
      apply Forall2_failed_probe_events in HF; destruct HF as [_ Hp].
    + rewrite forallb_app, Hp. reflexivity.
    + exact Hp.
Qed.

End ModelFacts.

(* ================================================================== *)
(** * The requests of one document *)
(* ================================================================== *)

Lemma str_eqb_refl (a : str) : str_eqb a a = true.
Proof. now apply str_eqb_eq. Qed.

Lemma query_count_app (a b : list Event) :
  query_count (a ++ b) = query_count a + query_count b.
Proof. unfold query_count. now rewrite filter_app, length_app. Qed.

Lemma requests_so_far_app (a b : list Event) :
  requests_so_far (a ++ b) = requests_so_far a + requests_so_far b.
Proof. unfold requests_so_far. now rewrite filter_app, length_app. Qed.

Lemma prompt_requests_app (a b : list Event) :
  prompt_requests (a ++ b) = prompt_requests a ++ prompt_requests b.
Proof.
  induction a as [|ev a IH]; [reflexivity|].
  destruct ev as [m [| |tier prompt content] resp|n]; simpl;
    now rewrite IH.
Qed.

Lemma dict_set_keys (d : dict) (key value : str) :
  ~ In key (map fst d) ->
  map fst (dict_set d key value) = map fst d ++ [key].
Proof.
  induction d as [|[k v] d IH]; intros Hk; [reflexivity|].
  simpl in *. destruct (str_eqb k key) eqn:E.
  - apply str_eqb_eq in E. exfalso. apply Hk. now left.
  - simpl. rewrite IH; [reflexivity|]. intros H. apply Hk. now right.
Qed.

Lemma distinct_NoDup (l : list str) : distinct l = true -> NoDup l.
Proof.
  induction l as [|x l IH]; intros H; [constructor|].
  simpl in H. apply andb_true_iff in H. destruct H as [Hx Hl].
  constructor; [|now apply IH].
  intros Hin. apply in_set_spec in Hin. rewrite Hin in Hx. discriminate.
Qed.

Lemma prompts_distinct : NoDup prompts.
Proof. apply distinct_NoDup. vm_compute. reflexivity. Qed.

Lemma paced_from_true (evs : list Event) :
  paced_from true evs = true -> paced evs = true.
Proof.
  destruct evs as [|[m req resp|n] evs]; simpl; auto.
Qed.

Section RequestFacts.

Variable client : nat -> str -> Request -> Response.

(** One topic: between one and three tier queries, all sent to the model
    in use. *)
Lemma process_prompt_shape (model : str) (parts : DocumentTextParts)
    (prompt : str) (st st' : State) (out : outcome str) :
  process_prompt client model parts prompt st = (out, st') ->
  exists evs,
    trace st' = trace st ++ evs
    /\ forallb (prompt_or_sleep model) evs = true
    /\ 1 <= query_count evs <= 3.
Proof.
  assert (forall text,
             process_prompt_flat client model text prompt st = (out, st') ->
             exists evs,
               trace st' = trace st ++ evs
               /\ forallb (prompt_or_sleep model) evs = true
               /\ 1 <= query_count evs <= 3) as Hflat.
  { intros text. unfold process_prompt_flat. run_monad.
    destruct (client (requests_so_far (trace st)) model
                     (ReqPrompt Whole prompt text)) as [raw|e];
      intros H; inversion H; subst; eexists [_];
      (split; [reflexivity|]); simpl; rewrite str_eqb_refl;
      (split; [reflexivity | unfold query_count; simpl; lia]). }
  destruct parts as [p s t|text|err]; simpl; try apply Hflat.
  intros H.
  destruct (process_prompt_expert_run client model p s t prompt st st' out H)
    as (evs & Etr & _ & R).
  exists evs. split; [exact Etr|].
  inversion R; subst; simpl; rewrite ?str_eqb_refl;
    (split; [reflexivity | unfold query_count; simpl; lia]).
Qed.

(** The topics of a document: at most three tier queries for each, all
    sent to the model in use. *)
Lemma process_prompts_shape (model : str) (parts : DocumentTextParts)
    (todo : list str) :
  forall (results : dict) (st st' : State) (out : outcome dict),
    process_prompts client model parts todo results st = (out, st') ->
    exists evs,
      trace st' = trace st ++ evs
      /\ forallb (prompt_or_sleep model) evs = true
      /\ query_count evs <= 3 * length todo.
Proof.
  induction todo as [|prompt rest IH]; intros results st st' out; simpl.
  - unfold ret. intros H. inversion H; subst.
    exists []. rewrite app_nil_r. repeat split. unfold query_count. simpl.
    lia.
  - unfold bind at 1.
    destruct (process_prompt client model parts prompt st) as [o st1] eqn:E1.
    destruct (process_prompt_shape model parts prompt st st1 o E1)
      as (evs1 & Etr1 & Hp1 & Hq1).
    destruct o as [result|e].
    + unfold bind at 1, sleep. intros H.
      destruct (IH _ _ _ _ H) as (evs2 & Etr2 & Hp2 & Hq2).
      simpl in Etr2.
      exists (evs1 ++ EvSleep 1 :: evs2). split; [|split].
      * rewrite Etr2, Etr1, <- !app_assoc. reflexivity.
      * rewrite forallb_app, Hp1. simpl. exact Hp2.
      * rewrite query_count_app.
        change (EvSleep 1 :: evs2) with ([EvSleep 1] ++ evs2).
        rewrite query_count_app. unfold query_count at 2. simpl. lia.
    + intros H. inversion H; subst. exists evs1.
      split; [exact Etr1|]. split; [exact Hp1 | lia].
Qed.

(** When the loop over the topics returns, the answers are filed under
    the topics, in the order of the topics. *)
Lemma process_prompts_keys (model : str) (parts : DocumentTextParts)
    (todo : list str) :
  forall (results results' : dict) (st st' : State),
    process_prompts client model parts todo results st
    = (Ret results', st') ->
    NoDup (map fst results ++ todo) ->
    map fst results' = map fst results ++ todo.
Proof.
  induction todo as [|prompt rest IH]; intros results results' st st'; simpl.
  - unfold ret. intros H _. inversion H; subst. now rewrite app_nil_r.
  - unfold bind at 1.
    destruct (process_prompt client model parts prompt st) as [o st1] eqn:E1.
    destruct o as [result|e]; [|discriminate].
    unfold bind at 1, sleep. intros H Hnd.
    apply IH in H.
    + rewrite H, dict_set_keys, <- app_assoc; [reflexivity|].
      apply NoDup_remove_2 in Hnd. intros Hin. apply Hnd.
      apply in_app_iff. now left.
    + rewrite dict_set_keys, <- app_assoc; [exact Hnd|].
      apply NoDup_remove_2 in Hnd. intros Hin. apply Hnd.
      apply in_app_iff. now left.
Qed.

(** X15: a document read in one piece: each topic is one query over the
    whole text, in the order of the topics, and a sleep stands between
    any two of the queries. *)
Theorem flat_document_queries (model text : str) (todo : list str) :
  forall (results : dict) (st st' : State) (out : outcome dict),
    process_prompts client model (FlatParts text) todo results st
    = (out, st') ->
    paced (issued st st') = true
    /\ (forall results', out = Ret results' ->
          prompt_requests (issued st st')
          = map (fun prompt => ReqPrompt Whole prompt text) todo).
Proof.
  assert (forall (results : dict) (st st' : State) (out : outcome dict),
             process_prompts client model (FlatParts text) todo results st
             = (out, st') ->
             exists evs,
               trace st' = trace st ++ evs
               /\ paced_from true evs = true
               /\ (forall results', out = Ret results' ->
                     prompt_requests evs
                     = map (fun prompt => ReqPrompt Whole prompt text) todo))
    as Hloop.
  { induction todo as [|prompt rest IH]; intros results st st' out; simpl.
    - unfold ret. intros H. inversion H; subst.
      exists []. rewrite app_nil_r. now repeat split.
    - unfold bind at 1, process_prompt_flat. run_monad.
      destruct (client (requests_so_far (trace st)) model
                       (ReqPrompt Whole prompt text)) as [raw|e].
      + intros H. destruct (IH _ _ _ _ H) as (evs & Etr & Hp & Hreq).
        simpl in Etr.
        exists (EvRequest model (ReqPrompt Whole prompt text) (Text raw)
                :: EvSleep 1 :: evs).
        split; [|split].
        * rewrite Etr, <- !app_assoc. reflexivity.
        * simpl. exact Hp.
        * intros results' Ho. simpl. now rewrite (Hreq results' Ho).
      + intros H. inversion H; subst. eexists [_].
        split; [reflexivity|]. split; [reflexivity|]. discriminate. }
  intros results st st' out H.
  destruct (Hloop results st st' out H) as (evs & Etr & Hp & Hreq).
  rewrite (issued_app st st' evs Etr).
  split; [now apply paced_from_true | exact Hreq].
Qed.

End RequestFacts.

Lemma flat_document_queries_witness :
  paced (issued initial_state
           (snd (process_prompts (scripted []) sample_model
                   (FlatParts (py "text")) prompts [] initial_state)))
  = true.
Proof.
  refine (proj1 (flat_document_queries (scripted []) sample_model
                   (py "text") prompts [] initial_state _ _ _)).
  apply surjective_pairing.
Defined.

Lemma probes_only (model : str) (evs : list Event) :
  forallb is_probe evs = true ->
  query_count evs = 0
  /\ no_failed_query evs = true
  /\ forallb (sent_to model) evs = true
  /\ requests_so_far evs = length evs.
Proof.
  unfold query_count, no_failed_query, requests_so_far.
  induction evs as [|ev evs IH]; intros H; [now repeat split|].
  simpl in H. apply andb_true_iff in H. destruct H as [Hev H].
  destruct (IH H) as (Hq & Hf & Hs & Hr).
  destruct ev as [m [| |tier prompt content] resp|n]; try discriminate.
  simpl. rewrite Hq, Hs, Hr. repeat split; try reflexivity. exact Hf.
Qed.

Lemma prompts_only (model : str) (evs : list Event) :
  forallb (prompt_or_sleep model) evs = true ->
  forallb (sent_to model) evs = true
  /\ existsb is_probe evs = false
  /\ requests_so_far evs = query_count evs.
Proof.
  unfold query_count, requests_so_far.
  induction evs as [|ev evs IH]; intros H; [now repeat split|].
  simpl in H. apply andb_true_iff in H. destruct H as [Hev H].
  destruct (IH H) as (Hs & Hp & Hr).
  destruct ev as [m [| |tier prompt content] resp|n]; simpl in Hev;
    try discriminate; simpl; rewrite ?Hev, ?Hs, ?Hp, ?Hr;
    now repeat split.
Qed.

Section DocumentSteps.

Variable client : nat -> str -> Request -> Response.
Variable fitz_open : str -> outcome (list Page).

(** The [try] block of a document, step by step: the model is taken
    from the state or detected, the session is reset, and the loop over
    the topics gives the result. *)
Lemma process_document_body_steps (document_path : str)
    (parts : DocumentTextParts) (st st' : State) (out : outcome DocResult) :
  process_document_body client document_path parts st = (out, st') ->
  exists model st2 pre out',
    trace st2 = trace st ++ pre
    /\ claude_model st2 = Some model
    /\ forallb (sent_to model) pre = true
    /\ query_count pre = 0
    /\ no_failed_query pre = true
    /\ requests_so_far pre <= 4
    /\ (forall m, claude_model st = Some m ->
                  model = m /\ existsb is_probe pre = false)
    /\ process_prompts client model parts prompts [] st2 = (out', st')
    /\ out = match out' with
             | Ret results => Ret (success_result document_path results)
             | Raise e => Raise e
             end.
Proof.
  unfold process_document_body.
  unfold bind at 1, get_claude_model.
  assert (forall model st1,
             claude_model st1 = Some model ->
             (_ <- reset_claude_session client model ;;
              results <- process_prompts client model parts prompts [] ;;
              ret (mkDocResult (basename document_path) document_path
                     (combine_responses results) (Some results))) st1
             = (out, st') ->
             exists rr out',
               process_prompts client model parts prompts []
                 (record_event (EvRequest model ReqReset rr) st1)
               = (out', st')
               /\ out = match out' with
                        | Ret results =>
                            Ret (success_result document_path results)
                        | Raise e => Raise e
                        end) as Hrest.
  { intros model st1 Em.
    unfold bind at 1, reset_claude_session, try_except, bind at 1,
      messages_create, ret.
    set (rr := client (requests_so_far (trace st1)) model ReqReset).
    intros Hstep. exists rr. revert Hstep. generalize rr. clear rr.
    intros rr. unfold bind.
    destruct rr;
      (destruct (process_prompts client model parts prompts []
                   (record_event (EvRequest model ReqReset _) st1))
         as [o s2] eqn:E;
       intros H; exists o; destruct o; inversion H; subst;
       split; reflexivity). }
  destruct (claude_model st) as [model|] eqn:Em.
  - unfold bind at 1, ret at 1. intros H.
    destruct (Hrest model st Em H) as (rr & out' & Hloop & Hout).
    exists model, (record_event (EvRequest model ReqReset rr) st),
      [EvRequest model ReqReset rr], out'.
    simpl. rewrite str_eqb_refl. unfold query_count, requests_so_far.
    simpl. repeat split; try assumption; try lia; try congruence.
  - unfold bind at 1, bind at 1.
    destruct (detection_events client st)
      as (model & st1 & evs & E & Em1 & Etr & Hlen & Hpr).
    rewrite E. unfold set_claude_model, bind at 1, ret at 1. intros H.
    destruct (Hrest model (mkState (trace st1) (Some model)) eq_refl H)
      as (rr & out' & Hloop & Hout).
    destruct (probes_only model evs Hpr) as (Hq & Hf & Hs & Hr).
    exists model,
      (record_event (EvRequest model ReqReset rr)
         (mkState (trace st1) (Some model))),
      (evs ++ [EvRequest model ReqReset rr]), out'.
    split; [simpl; now rewrite Etr, <- app_assoc|].
    split; [reflexivity|].
    split; [rewrite forallb_app, Hs; simpl; now rewrite str_eqb_refl|].
    split; [rewrite query_count_app, Hq; reflexivity|].
    split; [rewrite no_failed_query_app, Hf; reflexivity|].
    split; [rewrite requests_so_far_app, Hr; unfold requests_so_far;
            simpl; lia|].
    split; [intros m Hm; congruence|].
    now split.
Qed.

(** What a document comes to, when its text could be extracted. *)
Lemma process_document_steps (document_path : str) (st st' : State)
    (result : option DocResult) :
  process_document_with_claude client fitz_open document_path st
  = (result, st') ->
  is_error (extract_text_from_file fitz_open document_path) = false ->
  exists model st2 pre out' evs,
    trace st2 = trace st ++ pre
    /\ trace st' = trace st2 ++ evs
    /\ issued st st' = pre ++ evs
    /\ claude_model st' = Some model
    /\ forallb (sent_to model) pre = true
    /\ query_count pre = 0
    /\ no_failed_query pre = true
    /\ requests_so_far pre <= 4
    /\ (forall m, claude_model st = Some m ->
                  model = m /\ existsb is_probe pre = false)
    /\ process_prompts client model
         (extract_text_from_file fitz_open document_path) prompts [] st2
       = (out', st')
    /\ outcome_events out' evs
    /\ result = Some match out' with
                     | Ret results => success_result document_path results
                     | Raise e => error_result document_path e
                     end.
Proof.
  intros Hrun Hok. unfold process_document_with_claude in Hrun.
  rewrite Hok in Hrun.
  destruct (process_document_body client document_path
              (extract_text_from_file fitz_open document_path) st)
    as [out st1] eqn:Ebody.
  destruct (process_document_body_steps document_path _ st st1 out Ebody)
    as (model & st2 & pre & out' & Etr & Em & Hs & Hq & Hf & Hr & Hm
        & Hloop & Hout).
  assert (st1 = st') as -> by (destruct out; now inversion Hrun).
  destruct (process_prompts_events client model _ prompts [] st2 st' out'
              Hloop) as (evs & Etr2 & Em2 & O).
  exists model, st2, pre, out', evs.
  split; [exact Etr|]. split; [exact Etr2|].
  split; [apply issued_app; now rewrite Etr2, Etr, <- app_assoc|].
  split; [congruence|].
  split; [exact Hs|]. split; [exact Hq|]. split; [exact Hf|].
  split; [exact Hr|]. split; [exact Hm|]. split; [exact Hloop|].
  split; [exact O|].
  destruct out'; subst out; now inversion Hrun.
Qed.

(** X16: while a document is processed, the session reset and every tier
    query go to one model, the model kept in the state afterwards; when
    the state already holds a model that is the one, and no probe is
    made. *)
Theorem one_model_per_document (document_path : str) (st st' : State)
    (result : option DocResult) :
  process_document_with_claude client fitz_open document_path st
  = (result, st') ->
  is_error (extract_text_from_file fitz_open document_path) = false ->
  exists model,
    claude_model st' = Some model
    /\ forallb (sent_to model) (issued st st') = true
    /\ (forall m, claude_model st = Some m ->
                  model = m /\ existsb is_probe (issued st st') = false).
Proof.
  intros Hrun Hok.
  destruct (process_document_steps document_path st st' result Hrun Hok)
    as (model & st2 & pre & out' & evs & _ & Etr2 & Ei & Em & Hs & _ & _ & _
        & Hm & Hloop & _ & _).
  destruct (process_prompts_shape client model _ prompts [] st2 st' out'
              Hloop) as (evs' & Etr' & Hp & _).
  assert (evs = evs') as ->
      by (apply (app_inv_head (trace st2)); congruence).
  exists model. split; [exact Em|].
  destruct (prompts_only model evs' Hp) as (Hs' & Hp' & _).
  rewrite Ei. split.
  - now rewrite forallb_app, Hs, Hs'.
  - intros m Hst. destruct (Hm m Hst) as [-> Hnp]. split; [reflexivity|].
    now rewrite existsb_app, Hnp, Hp'.
Qed.

(** X17: a document costs at most three tier queries for each of the thirteen
    topics, and at most four requests before them. *)
Theorem request_budget (document_path : str) (st st' : State)
    (result : option DocResult) :
  process_document_with_claude client fitz_open document_path st
  = (result, st') ->
  query_count (issued st st') <= 39
  /\ requests_so_far (issued st st') <= 43.
Proof.
  intros Hrun.
  destruct (is_error (extract_text_from_file fitz_open document_path))
    eqn:Hok.
  - unfold process_document_with_claude in Hrun. rewrite Hok in Hrun.
    inversion Hrun; subst. rewrite issued_same.
    unfold query_count, requests_so_far. simpl. lia.
  - destruct (process_document_steps document_path st st' result Hrun Hok)
      as (model & st2 & pre & out' & evs & _ & Etr2 & Ei & _ & _ & Hq & _
          & Hr & _ & Hloop & _ & _).
    destruct (process_prompts_shape client model _ prompts [] st2 st' out'
                Hloop) as (evs' & Etr' & Hp & Hcount).
    assert (evs = evs') as ->
        by (apply (app_inv_head (trace st2)); congruence).
    destruct (prompts_only model evs' Hp) as (_ & _ & Hreq).
    rewrite Ei, query_count_app, requests_so_far_app, Hq, Hreq.
    change (length prompts) with 13 in Hcount. lia.
Qed.

(** X18: when the text of a document was extracted and no tier query raised,
    the result of the document holds an answer for each of the topics, in
    the order of the topics, whether or not the probes and the session
    reset succeeded. *)
Theorem document_success (document_path : str) (st st' : State)
    (result : option DocResult) :
  process_document_with_claude client fitz_open document_path st
  = (result, st') ->
  is_error (extract_text_from_file fitz_open document_path) = false ->
  no_failed_query (issued st st') = true ->
  exists results,
    result = Some (success_result document_path results)
    /\ map fst results = prompts.
Proof.
  intros Hrun Hok Hnf.
  destruct (process_document_steps document_path st st' result Hrun Hok)
    as (model & st2 & pre & out' & evs & _ & _ & Ei & _ & _ & _ & Hf & _
        & _ & Hloop & O & Hres).
  rewrite Ei, no_failed_query_app, Hf in Hnf. simpl in Hnf.
  destruct out' as [results|e].
  - exists results. split; [exact Hres|].
    apply (process_prompts_keys client model _ prompts [] results st2 st'
             Hloop).
    simpl. apply prompts_distinct.
  - simpl in O.
    destruct O as (evs0 & m & tier & prompt & content & -> & _).
    rewrite no_failed_query_app in Hnf.
    apply andb_true_iff in Hnf. destruct Hnf as [_ Hnf]. discriminate.
Qed.

Lemma process_document_result_path (doc_path : str) (st : State) :
  match fst (process_document_with_claude client fitz_open doc_path st)
  with
  | Some r =>
      doc_path = document_path r
      /\ is_error (extract_text_from_file fitz_open doc_path) = false
  | None => is_error (extract_text_from_file fitz_open doc_path) = true
  end.
Proof.
  unfold process_document_with_claude.
  destruct (is_error (extract_text_from_file fitz_open doc_path));
    [reflexivity|].
  destruct (process_document_body client doc_path
              (extract_text_from_file fitz_open doc_path) st)
    as [out st1] eqn:Ebody.
  destruct (process_document_body_steps doc_path _ st st1 out Ebody)
    as (model & st2 & pre & out' & _ & _ & _ & _ & _ & _ & _ & _ & Hout).
  destruct out'; subst out; simpl; now split.
Qed.

(** X19: the results of a batch hold one entry for each document whose text
    could be extracted, in the order of the batch, and nothing else. *)
Theorem batch_results (document_paths : list str) (st : State) :
  map document_path
      (fst (process_documents client fitz_open document_paths st))
  = filter (fun p => negb (is_error (extract_text_from_file fitz_open p)))
           document_paths.
Proof.
  unfold process_documents.
  assert (forall paths results st0,
             map document_path
                 (fst (process_documents_loop client fitz_open paths results
                         st0))
             = map document_path results
               ++ filter (fun p => negb (is_error
                                           (extract_text_from_file fitz_open
                                              p)))
                         paths) as Hloop.
  { induction paths as [|p paths IH]; intros results st0; simpl.
    - now rewrite app_nil_r.
    - pose proof (process_document_result_path p st0) as Hp.
      destruct (process_document_with_claude client fitz_open p st0)
        as [[r|] st1]; simpl in Hp; rewrite IH.
      + destruct Hp as [Hpath ->]. simpl.
        now rewrite map_app, <- app_assoc, Hpath.
      + now rewrite Hp. }
  apply (Hloop document_paths [] st).
Qed.

End DocumentSteps.

Lemma one_model_per_document_witness :
  exists model,
    claude_model
      (snd (process_document_with_claude (failing_at 0 long_answer)
              sample_open deposition_path initial_state)) = Some model
    /\ forallb (sent_to model)
         (issued initial_state
            (snd (process_document_with_claude (failing_at 0 long_answer)
                    sample_open deposition_path initial_state))) = true
    /\ (forall m, claude_model initial_state = Some m ->
                  model = m
                  /\ existsb is_probe
                       (issued initial_state
                          (snd (process_document_with_claude
                                  (failing_at 0 long_answer) sample_open
                                  deposition_path initial_state))) = false).
Proof.
  refine (one_model_per_document (failing_at 0 long_answer) sample_open
            deposition_path initial_state _ _ _ _).
  - apply surjective_pairing.
  - vm_compute. reflexivity.
Defined.

Lemma request_budget_witness :
  query_count
    (issued initial_state
       (snd (process_document_with_claude (scripted []) sample_open
               expert_path initial_state))) <= 39
  /\ requests_so_far
       (issued initial_state
          (snd (process_document_with_claude (scripted []) sample_open
                  expert_path initial_state))) <= 43.
Proof.
  refine (request_budget (scripted []) sample_open expert_path
            initial_state _ _ _).
  apply surjective_pairing.
Defined.

Lemma document_success_witness :
  exists results,
    fst (process_document_with_claude (failing_at 1 long_answer) sample_open
           deposition_path initial_state)
    = Some (success_result deposition_path results)
    /\ map fst results = prompts.
Proof.
  refine (document_success (failing_at 1 long_answer) sample_open
            deposition_path initial_state _ _ _ _ _).
  - apply surjective_pairing.
  - vm_compute. reflexivity.
  - vm_compute. reflexivity.
Defined.

(* ================================================================== *)
(** * Page citations *)
(* ================================================================== *)

Lemma span_decomp (p : ascii -> bool) (x : str) :
  x = fst (span p x) ++ snd (span p x).
Proof.
  induction x as [|c x IH]; [reflexivity|].
  simpl. destruct (p c); [|reflexivity].
  destruct (span p x) as [taken rest]. simpl in *. now rewrite <- IH.
Qed.

(** A span stops at a character that does not satisfy the test. *)
Lemma span_app_stop (p : ascii -> bool) (x y : str) (c : ascii) :
  p c = false ->
  span p (x ++ c :: y) = (fst (span p x), snd (span p x) ++ c :: y).
Proof.
  intros Hc. induction x as [|d x IH]; simpl.
  - now rewrite Hc.
  - destruct (p d); [|reflexivity].
    rewrite IH. now destruct (span p x).
Qed.

Lemma span_all (p : ascii -> bool) (x : str) :
  forallb p x = true -> span p x = (x, []).
Proof.
  induction x as [|c x IH]; [reflexivity|].
  simpl. intros H. apply andb_true_iff in H. destruct H as [Hc Hx].
  now rewrite Hc, (IH Hx).
Qed.

Lemma snd_span_length (p : ascii -> bool) (x : str) :
  length (snd (span p x)) <= length x.
Proof.
  rewrite (span_decomp p x) at 2. rewrite length_app. lia.
Qed.

(** A prefix matched without regard to case stops short of a character
    that is none of its letters. *)
Lemma istrip_prefix_stop (p : str) (c : ascii) :
  forallb (fun a => negb (eqc (lower_char a) (lower_char c))) p = true ->
  forall (x y r : str),
    istrip_prefix p (x ++ c :: y) = Some r ->
    exists x', r = x' ++ c :: y /\ length x' <= length x.
Proof.
  induction p as [|a p IH]; intros Hp x y r; simpl.
  - intros H. inversion H; subst. now exists x.
  - simpl in Hp. apply andb_true_iff in Hp. destruct Hp as [Ha Hp].
    apply negb_true_iff in Ha.
    destruct x as [|b x]; simpl.
    + now rewrite Ha.
    + destruct (eqc (lower_char a) (lower_char b)); [|discriminate].
      intros H. destruct (IH Hp x y r H) as (x' & -> & Hl).
      exists x'. split; [reflexivity | lia].
Qed.

(** A match of a page citation does not reach over an opening
    parenthesis. *)
Lemma match_page_stop (x y digits rest : str) :
  match_page (x ++ "("%char :: y) = Some (digits, rest) ->
  exists x', rest = x' ++ "("%char :: y /\ length x' <= length x.
Proof.
  unfold match_page.
  destruct (istrip_prefix (py "Page") (x ++ "("%char :: y)) as [r1|] eqn:E1;
    [|discriminate].
  destruct (istrip_prefix_stop (py "Page") "("%char eq_refl x y r1 E1)
    as (x1 & -> & Hl1).
  rewrite (span_app_stop isspace x1 y "("%char eq_refl).
  destruct (fst (span isspace x1)) as [|w ws]; [discriminate|].
  rewrite (span_app_stop isdigit (snd (span isspace x1)) y "("%char eq_refl).
  destruct (fst (span isdigit (snd (span isspace x1)))) as [|d ds];
    [discriminate|].
  intros H. inversion H; subst.
  eexists. split; [reflexivity|].
  pose proof (snd_span_length isdigit (snd (span isspace x1))).
  pose proof (snd_span_length isspace x1). lia.
Qed.

Lemma isdigit_not_space (c : ascii) : isdigit c = true -> isspace c = false.
Proof.
  destruct c as [[] [] [] [] [] [] [] []]; vm_compute; intros H;
    try reflexivity; discriminate H.
Qed.

Lemma uint_digits (u : Decimal.uint) :
  forallb isdigit (py (NilEmpty.string_of_uint u)) = true.
Proof. induction u; simpl; auto. Qed.

(** [str(n)] is a non-empty run of digits. *)
Lemma str_of_nat_digits (n : nat) :
  forallb isdigit (str_of_nat n) = true /\ str_of_nat n <> [].
Proof.
  unfold str_of_nat, NilZero.string_of_uint.
  destruct (Nat.to_uint n) as [|u|u|u|u|u|u|u|u|u|u];
    (split; [try reflexivity; exact (uint_digits u) | discriminate]).
Qed.

(** A citation at the start of the text is matched, with its digits. *)
Lemma match_page_citation (digits post : str) :
  forallb isdigit digits = true -> digits <> [] ->
  match_page (py "Page " ++ digits ++ ")"%char :: post)
  = Some (digits, ")"%char :: post).
Proof.
  intros Hd Hne. unfold match_page.
  change (istrip_prefix (py "Page") (py "Page " ++ digits ++ ")"%char :: post))
    with (Some (" "%char :: digits ++ ")"%char :: post)).
  destruct digits as [|d ds]; [congruence|].
  simpl in Hd. apply andb_true_iff in Hd. destruct Hd as [Hd Hds].
  assert (span isspace (" "%char :: (d :: ds) ++ ")"%char :: post)
          = ([" "%char], (d :: ds) ++ ")"%char :: post)) as Es.
  { simpl. change (isspace " "%char) with true.
    now rewrite (isdigit_not_space d Hd). }
  rewrite Es.
  rewrite (span_app_stop isdigit (d :: ds) post ")"%char eq_refl).
  rewrite (span_all isdigit (d :: ds)) by (simpl; now rewrite Hd, Hds).
  reflexivity.
Qed.

(** The search for citations finds one that stands after any text,
    wherever the search has got to in that text. *)
Lemma findall_pages_from_finds (digits post : str) :
  forallb isdigit digits = true -> digits <> [] ->
  forall (pre : str) (skip : nat),
    skip <= length pre ->
    In digits
       (findall_pages_from skip
          (pre ++ "("%char :: py "Page " ++ digits ++ ")"%char :: post)).
Proof.
  intros Hd Hne.
  induction pre as [|c pre IH]; intros skip Hskip.
  - assert (skip = 0) as -> by (simpl in Hskip; lia).
    change ([] ++ "("%char :: py "Page " ++ digits ++ ")"%char :: post)
      with ("("%char :: (py "Page " ++ digits ++ ")"%char :: post)).
    cbn [findall_pages_from].
    change (match_page
              ("("%char :: py "Page " ++ digits ++ ")"%char :: post))
      with (@None (str * str)).
    cbv iota.
    change (py "Page " ++ digits ++ ")"%char :: post)
      with ("P"%char :: (py "age " ++ digits ++ ")"%char :: post)).
    cbn [findall_pages_from].
    change ("P"%char :: (py "age " ++ digits ++ ")"%char :: post))
      with (py "Page " ++ digits ++ ")"%char :: post).
    rewrite (match_page_citation digits post Hd Hne). now left.
  - change ((c :: pre) ++ "("%char :: py "Page " ++ digits ++ ")"%char :: post)
      with (c :: (pre ++ "("%char :: py "Page " ++ digits
                      ++ ")"%char :: post)).
    cbn [findall_pages_from].
    destruct skip as [|k]; [|apply IH; simpl in Hskip; lia].
    change (c :: (pre ++ "("%char :: py "Page " ++ digits
                      ++ ")"%char :: post))
      with ((c :: pre) ++ "("%char :: (py "Page " ++ digits
                                        ++ ")"%char :: post)).
    destruct (match_page
                ((c :: pre) ++ "("%char :: (py "Page " ++ digits
                                             ++ ")"%char :: post)))
      as [[found rest]|] eqn:E.
    + right. apply IH.
      destruct (match_page_stop (c :: pre) _ found rest E)
        as (x' & -> & Hl).
      rewrite !length_app. simpl. lia.
    + apply IH. lia.
Qed.

(** X20: every citation written as the prompt asks, "(Page n)", is among the
    footnotes found in a text, whatever stands before and after it. *)
Theorem page_citation_found (before after : str) (n : nat) :
  In (str_of_nat n)
     (findall_pages
        (before ++ py "(Page " ++ str_of_nat n ++ py ")" ++ after)).
Proof.
  destruct (str_of_nat_digits n) as [Hd Hne].
  apply (findall_pages_from_finds (str_of_nat n) after Hd Hne before 0).
  lia.
Qed.

(* ================================================================== *)
(** * The sections of the report *)
(* ================================================================== *)

Lemma after_close_none (s : str) :
  ~ In ")"%char s -> after_close s = None.
Proof.
  induction s as [|c s IH]; intros H; [reflexivity|].
  simpl. destruct (eqc c ")"%char) eqn:E.
  - apply eqc_eq in E. exfalso. apply H. now left.
  - apply IH. intros Hin. apply H. now right.
Qed.

Lemma lstrip_incl (s : str) (c : ascii) : In c (lstrip s) -> In c s.
Proof.
  induction s as [|d s IH]; [auto|].
  simpl. destruct (isspace d); [|auto]. intros H. right. now apply IH.
Qed.

Lemma match_parenthetical_none (s : str) :
  ~ In "("%char s \/ ~ In ")"%char s -> match_parenthetical s = None.
Proof.
  intros H. unfold match_parenthetical.
  destruct (lstrip s) as [|c s'] eqn:E; [reflexivity|].
  destruct (eqc c "("%char) eqn:Ec; [|reflexivity].
  apply eqc_eq in Ec. subst c. destruct H as [H|H].
  - exfalso. apply H. apply lstrip_incl. rewrite E. now left.
  - apply after_close_none. intros Hin. apply H.
    apply lstrip_incl. rewrite E. now right.
Qed.

(** X21: a text without an opening parenthesis, or without a closing one, is
    left as it is: a parenthetical that is never closed stays in the
    heading. *)
Theorem unclosed_parenthetical_kept (s : str) :
  ~ In "("%char s \/ ~ In ")"%char s -> remove_parentheticals s = s.
Proof.
  unfold remove_parentheticals.
  induction s as [|c s IH]; intros H; [reflexivity|].
  cbn [remove_parentheticals_from].
  rewrite (match_parenthetical_none (c :: s) H).
  f_equal. apply IH.
  destruct H as [H|H]; [left|right]; intros Hin; apply H; now right.
Qed.

Lemma unclosed_parenthetical_kept_witness :
  remove_parentheticals (nth 1 prompts []) = nth 1 prompts [].
Proof.
  apply unclosed_parenthetical_kept. right. vm_compute.
  intuition discriminate.
Defined.

Lemma lower_char_hash (c : ascii) :
  eqc (lower_char "#"%char) (lower_char c) = true -> c = "#"%char.
Proof.
  destruct c as [[] [] [] [] [] [] [] []]; vm_compute; intros H;
    try reflexivity; discriminate H.
Qed.

Lemma lower_char_space (c : ascii) :
  eqc (lower_char " "%char) (lower_char c) = true -> c = " "%char.
Proof.
  destruct c as [[] [] [] [] [] [] [] []]; vm_compute; intros H;
    try reflexivity; discriminate H.
Qed.

(** A section starts on the characters "## ". *)
Lemma match_section_header (prompt s group : str) :
  match_section prompt s = Some group -> startswith s (py "## ") = true.
Proof.
  unfold match_section.
  destruct (istrip_prefix (py "## " ++ prompt) s) as [r|] eqn:E;
    [|discriminate].
  intros _. revert E.
  change (py "## " ++ prompt)
    with ("#"%char :: "#"%char :: " "%char :: prompt).
  destruct s as [|a [|b [|c s]]]; cbn [istrip_prefix]; try discriminate.
  - destruct (eqc (lower_char "#"%char) (lower_char a)); discriminate.
  - destruct (eqc (lower_char "#"%char) (lower_char a)); [|discriminate].
    destruct (eqc (lower_char "#"%char) (lower_char b)); discriminate.
  - destruct (eqc (lower_char "#"%char) (lower_char a)) eqn:Ea;
      [|discriminate].
    destruct (eqc (lower_char "#"%char) (lower_char b)) eqn:Eb;
      [|discriminate].
    destruct (eqc (lower_char " "%char) (lower_char c)) eqn:Ec;
      [|discriminate].
    apply lower_char_hash in Ea, Eb. apply lower_char_space in Ec.
    subst. reflexivity.
Qed.

Lemma str_in_unfold (needle hay : str) :
  str_in needle hay
  = startswith hay needle
    || match hay with [] => false | _ :: hay' => str_in needle hay' end.
Proof. destruct hay; reflexivity. Qed.

(** In a text without "## " no section is found. *)
Lemma search_section_none (prompt s : str) :
  str_in (py "## ") s = false -> search_section prompt s = None.
Proof.
  induction s as [|c s IH]; intros H; rewrite str_in_unfold in H;
    apply orb_false_iff in H; destruct H as [Hs Ht];
    cbn [search_section];
    (destruct (match_section prompt _) as [group|] eqn:E;
     [apply match_section_header in E; congruence|]).
  - reflexivity.
  - now apply IH.
Qed.

Lemma parsed_set_all (v : Parsed) (d : parsed_dict) (key : str) :
  Forall (fun kv => snd kv = v) d ->
  Forall (fun kv => snd kv = v) (parsed_set d key v).
Proof.
  induction d as [|[k w] d IH]; intros H; simpl.
  - now repeat constructor.
  - inversion H; subst. destruct (str_eqb k key); constructor; auto.
Qed.

Lemma parsed_get_all (v : Parsed) (d : parsed_dict) (key : str) :
  Forall (fun kv => snd kv = v) d ->
  parsed_get d key = None \/ parsed_get d key = Some v.
Proof.
  induction d as [|[k w] d IH]; intros H; simpl; [now left|].
  inversion H; subst. simpl in *. destruct (str_eqb k key); [now right|].
  now apply IH.
Qed.

(** The error result of a document whose message has no "## " in it
    parses to "No information found" for every prompt. *)
Lemma parse_error_result (doc_path e : str) :
  str_in (py "## ") e = false ->
  Forall (fun kv => snd kv = no_information)
         (parse_claude_response (error_result doc_path e)).
Proof.
  intros He. unfold parse_claude_response. simpl individual_responses.
  cbv iota.
  assert (forall prompt,
             parse_section (response (error_result doc_path e)) prompt
             = no_information) as Hsec.
  { intros prompt. unfold parse_section.
    rewrite search_section_none; [reflexivity|].
    simpl response. exact He. }
  apply fold_left_invariant; [|constructor].
  intros acc prompt Hacc. rewrite Hsec. now apply parsed_set_all.
Qed.

Section ReportFacts.

Variable docx_accepts : str -> bool.

Lemma error_result_blocks (prompt doc_path e : str) (doc : list Block) :
  str_in (py "## ") e = false ->
  document_blocks docx_accepts prompt (error_result doc_path e) doc
  = Some (false, doc).
Proof.
  intros He. unfold document_blocks.
  destruct (parsed_get_all no_information _ prompt
              (parse_error_result doc_path e He)) as [-> | ->];
    reflexivity.
Qed.

Lemma error_results_loop (prompt : str) (results : list DocResult) :
  Forall (fun r => exists doc_path e,
                     r = error_result doc_path e
                     /\ str_in (py "## ") e = false) results ->
  forall (has_content : bool) (doc : list Block),
    document_loop docx_accepts prompt results has_content doc
    = Some (has_content, doc).
Proof.
  induction 1 as [|r results (doc_path & e & -> & He) _ IH];
    intros has_content doc; [reflexivity|].
  cbn [document_loop].
  rewrite (error_result_blocks prompt doc_path e doc He).
  cbn [and_then fst snd]. rewrite orb_false_r. apply IH.
Qed.

(** X22: documents that failed leave no trace in the report: when every
    result is the error result of a document, with a message that has no
    "## " in it, python-docx is handed nothing but the heading of the
    prompt and the paragraph "N/A"; the section of each prompt is that
    heading, "N/A" and a page break, and the messages are not shown.  The
    report fails only if python-docx refuses the heading or "N/A". *)
Theorem failed_documents_not_shown (prompt : str)
    (results : list DocResult) (doc : list Block) :
  Forall (fun r => exists doc_path e,
                     r = error_result doc_path e
                     /\ str_in (py "## ") e = false) results ->
  prompt_section docx_accepts prompt results doc
  = if docx_accepts (remove_parentheticals prompt) && docx_accepts NA
    then Some (doc ++ [Heading (remove_parentheticals prompt) 1;
                       Paragraph NA; PageBreak])
    else None.
Proof.
  intros HF. unfold prompt_section, add_heading.
  destruct (docx_accepts (remove_parentheticals prompt)); [|reflexivity].
  cbn [and_then andb].
  rewrite (error_results_loop prompt results HF). cbn [and_then fst snd negb].
  unfold add_paragraph. destruct (docx_accepts NA); [|reflexivity].
  cbn [and_then]. unfold add_page_break.
  now rewrite <- !app_assoc.
Qed.

End ReportFacts.

Lemma failed_documents_not_shown_witness :
  prompt_section xml_compatible (py "Taxes")
    [error_result deposition_path (py "rate limit exceeded")] []
  = if xml_compatible (remove_parentheticals (py "Taxes"))
       && xml_compatible NA
    then Some ([] ++ [Heading (remove_parentheticals (py "Taxes")) 1;
                      Paragraph NA; PageBreak])
    else None.
Proof.
  apply failed_documents_not_shown.
  constructor; [|constructor].
  exists deposition_path, (py "rate limit exceeded").
  split; [reflexivity | vm_compute; reflexivity].
Defined.






(** An answer with a form feed in it has content to show, python-docx
    raises on it, and the sections of the report come to nothing. *)
Lemma form_feed_answer_raises :
  has_content_text (strip form_feed_answer) = true
  /\ document_blocks xml_compatible (py "Taxes")
       (success_result deposition_path [(py "Taxes", form_feed_answer)]) []
     = None
  /\ report_sections xml_compatible
       [success_result deposition_path [(py "Taxes", form_feed_answer)]] []
     = None.
Proof. repeat split; vm_compute; reflexivity. Qed.
